(** * Employee management system: the dynamic form engine

    A shallow embedding of [employee/models.py], of the views of
    [employee/views.py] that define form fields, build employee records
    from them, search, edit, delete and reorder, and of what
    [employee/serializers.py] adds to the API views among them.

    Conventions of the embedding:
    - Python [int] is [Z]; Python [str] is [string], a character being a
      code point below 256; [None] is the [None] of [option].
    - A Python [dict] is an association list in insertion order: assigning
      to a key that is present replaces the value in place.
    - The database is a record of two tables (lists of rows in insertion
      order) and their primary-key sequences.  A view is a function from
      the request and the database to a raised exception or a response,
      together with the database it leaves behind.
    - The database is SQLite, the one a Django project starts with: an
      integer column holds 64 bits, signed, and an integer outside that
      range cannot be bound to a statement ([OverflowError]); the column
      of a [PositiveIntegerField] carries the check [>= 0]; the length of
      a text column is not enforced.
    - The time stamps [created_at] and [updated_at] are left out: no view
      modelled here reads them. *)

From Stdlib Require Import ZArith Ascii String.
From stdpp Require Import base decidable option list numbers strings pretty gmap
  sorting.

Local Open Scope string_scope.
Local Open Scope list_scope.
Local Open Scope Z_scope.

(** ** Python values *)

Module Py.

(** [dict]: keys in insertion order, one binding per key. *)
Abbreviation dict V := (list (string * V)).

Fixpoint setitem {V} (d : dict V) (k : string) (v : V) : dict V :=
  match d with
  | [] => [(k, v)]
  | (k', v') :: d' =>
      if decide (k' = k) then (k', v) :: d' else (k', v') :: setitem d' k v
  end.

Fixpoint get {V} (d : dict V) (k : string) : option V :=
  match d with
  | [] => None
  | (k', v') :: d' => if decide (k' = k) then Some v' else get d' k
  end.

Definition keys {V} (d : dict V) : list string := d.*1.

(** [str.isspace] on code points below 256. *)
Definition isspace (c : ascii) : bool :=
  let n := N_of_ascii c in
  ((9 <=? n) && (n <=? 13) || (28 <=? n) && (n <=? 32)
   || (n =? 133) || (n =? 160))%N.

Definition digit (c : ascii) : option Z :=
  let n := N_of_ascii c in
  if ((48 <=? n) && (n <=? 57))%N then Some (Z.of_N n - 48) else None.

Fixpoint lstrip (s : string) : string :=
  match s with
  | String c s' => if isspace c then lstrip s' else s
  | EmptyString => EmptyString
  end.

Definition strip (s : string) : string :=
  String.rev (lstrip (String.rev (lstrip s))).

(** The digits of a decimal literal; a single underscore may separate two
    digits.  [seen] tells whether the previous character was a digit. *)
Fixpoint digits (acc : Z) (seen : bool) (s : string) : option Z :=
  match s with
  | EmptyString => if seen then Some acc else None
  | String c s' =>
      match digit c with
      | Some d => digits (10 * acc + d) true s'
      | None =>
          if decide (c = "_"%char) then
            if seen then digits acc false s' else None
          else None
      end
  end.

(** [int(s)] for a string [s]; [None] stands for [ValueError].  The
    interpreter also refuses a text with more digits than a bound it has
    (4300 by default); the bound is not part of this function, which is
    applied to shorter texts. *)
Definition int (s : string) : option Z :=
  match strip s with
  | String "-" s' => Z.opp <$> digits 0 false s'
  | String "+" s' => digits 0 false s'
  | s' => digits 0 false s'
  end.

(** [str(n)] for an integer [n]. *)
Definition str (n : Z) : string := pretty n.

(** [enumerate(l)] *)
Fixpoint enumerate_from {A} (i : Z) (l : list A) : list (Z * A) :=
  match l with
  | [] => []
  | x :: l' => (i, x) :: enumerate_from (i + 1) l'
  end.

Definition enumerate {A} (l : list A) : list (Z * A) := enumerate_from 0 l.

(** [needle in hay] on strings. *)
Fixpoint startswith (hay needle : string) : bool :=
  match needle, hay with
  | EmptyString, _ => true
  | String c n', String d h' => bool_decide (c = d) && startswith h' n'
  | String _ _, EmptyString => false
  end.

Fixpoint contains (hay needle : string) : bool :=
  startswith hay needle
  || match hay with
     | EmptyString => false
     | String _ h' => contains h' needle
     end.

End Py.

(** ** Requests *)

(** [QueryDict]: every key carries the list of the values submitted for it. *)
Module QueryDict.

Abbreviation t := (gmap string (list string)).

(** [q.get(key)]: the last value of the key, [None] when the key is
    missing or its list is empty. *)
Definition get (q : t) (key : string) : option string :=
  q !! key ≫= last.

Definition get_default (q : t) (key dflt : string) : string :=
  default dflt (get q key).

Definition getlist (q : t) (key : string) : list string :=
  default [] (q !! key).

End QueryDict.

Module Request.
Record t := mk {
  user : Z;              (* pk of the authenticated account *)
  method : string;
  GET : QueryDict.t;
  POST : QueryDict.t;
  is_ajax : bool;
}.
End Request.

(** ** Models *)

Definition FIELD_TYPES : list (string * string) :=
  [ ("text", "Text"); ("number", "Number"); ("date", "Date");
    ("email", "Email"); ("password", "Password"); ("textarea", "Text Area");
    ("checkbox", "Checkbox"); ("select", "Select") ].

Module FormField.
Record t := mk {
  id : Z;
  label : string;
  field_type : string;
  required : bool;
  order : Z;
  created_by : Z;
}.

#[global] Instance eq_dec : EqDecision t.
Proof. solve_decision. Defined.

Definition set_order (o : Z) (f : t) : t :=
  mk (id f) (label f) (field_type f) (required f) o (created_by f).
End FormField.

(** One entry of [Employee.fields]: [{'value': ..., 'type': ...}]. *)
Module Entry.
Record t := mk { value : option string; type : string }.

#[global] Instance eq_dec : EqDecision t.
Proof. solve_decision. Defined.
End Entry.

Module Employee.
Record t := mk {
  id : Z;
  user : Z;                      (* OneToOneField: unique in the table *)
  fields : Py.dict Entry.t;
}.

#[global] Instance eq_dec : EqDecision t.
Proof. solve_decision. Defined.

Definition set_fields (d : Py.dict Entry.t) (e : t) : t :=
  mk (id e) (user e) d.
End Employee.

(** ** The text of a JSON column *)

(** [json.dumps] with its defaults (separators [", "] and [": "], escapes
    to ASCII): the text the [JSONField] hands to the database for
    [Employee.fields], and the text the [icontains] lookup is matched
    against. *)
Module json.

Definition quote : ascii := Eval cbv in ascii_of_N 34.
Definition backslash : ascii := Eval cbv in ascii_of_N 92.

Definition hex (n : N) : ascii :=
  if (n <? 10)%N then ascii_of_N (48 + n) else ascii_of_N (87 + n).

Definition escape (c : ascii) : string :=
  let n := N_of_ascii c in
  if decide (c = quote) then String backslash (String quote EmptyString)
  else if decide (c = backslash) then String backslash (String backslash EmptyString)
  else if (n =? 8)%N then String backslash "b"
  else if (n =? 12)%N then String backslash "f"
  else if (n =? 10)%N then String backslash "n"
  else if (n =? 13)%N then String backslash "r"
  else if (n =? 9)%N then String backslash "t"
  else if ((32 <=? n) && (n <=? 126))%N then String c EmptyString
  else String backslash
         (String "u" (String "0" (String "0"
            (String (hex (n / 16)) (String (hex (n mod 16)) EmptyString))))).

Fixpoint escape_all (s : string) : string :=
  match s with
  | EmptyString => EmptyString
  | String c s' => escape c +:+ escape_all s'
  end.

Definition dumps_str (s : string) : string :=
  String quote (escape_all s +:+ String quote EmptyString).

Definition dumps_entry (e : Entry.t) : string :=
  "{" +:+ dumps_str "value" +:+ ": "
      +:+ match Entry.value e with
          | None => "null"
          | Some v => dumps_str v
          end
      +:+ ", " +:+ dumps_str "type" +:+ ": " +:+ dumps_str (Entry.type e)
      +:+ "}".

Fixpoint dumps_items (d : Py.dict Entry.t) : string :=
  match d with
  | [] => EmptyString
  | [(k, v)] => dumps_str k +:+ ": " +:+ dumps_entry v
  | (k, v) :: d' => dumps_str k +:+ ": " +:+ dumps_entry v +:+ ", " +:+ dumps_items d'
  end.

Definition dumps (d : Py.dict Entry.t) : string :=
  "{" +:+ dumps_items d +:+ "}".

End json.

(** The [icontains] lookup: the pattern is taken literally and compared
    with the column's text without regard to the case of ASCII letters. *)
Definition upper_char (c : ascii) : ascii :=
  let n := N_of_ascii c in
  if ((97 <=? n) && (n <=? 122))%N then ascii_of_N (n - 32) else c.

Fixpoint upper (s : string) : string :=
  match s with
  | EmptyString => EmptyString
  | String c s' => String (upper_char c) (upper s')
  end.

Definition icontains (column pattern : string) : bool :=
  Py.contains (upper column) (upper pattern).

(** ** The database and the outcome of a view *)

Record DB := mkDB {
  formfield_table : list FormField.t;
  formfield_seq : Z;                    (* next primary key *)
  employee_table : list Employee.t;
  employee_seq : Z;
}.

Inductive Exception :=
| DoesNotExist
| MultipleObjectsReturned
| IntegrityError
| ValueError
| OverflowError.

(** The integers SQLite stores: a parameter of a statement outside this
    range makes the driver raise [OverflowError] before the statement
    runs. *)
Definition int64 (n : Z) : Prop := -2 ^ 63 ≤ n < 2 ^ 63.

#[global] Instance int64_dec n : Decision (int64 n).
Proof. unfold int64. apply _. Defined.

(** A computation over the database: it raises or returns, and in both
    cases leaves a database behind (writes are committed one by one). *)
Definition M (A : Type) : Type := DB → (Exception + A) * DB.

Definition ret {A} (a : A) : M A := λ db, (inr a, db).
Definition raise {A} (e : Exception) : M A := λ db, (inl e, db).
Definition bind {A B} (m : M A) (k : A → M B) : M B :=
  λ db, match m db with
        | (inr a, db') => k a db'
        | (inl e, db') => (inl e, db')
        end.

#[global] Instance M_ret : MRet M := @ret.
#[global] Instance M_bind : MBind M := λ A B k m, bind m k.

(** Reading and writing the tables. *)
Definition get_db : M DB := λ db, (inr db, db).
Definition put_formfields (l : list FormField.t) : M unit :=
  λ db, (inr (), mkDB l (formfield_seq db) (employee_table db) (employee_seq db)).
Definition put_employees (l : list Employee.t) : M unit :=
  λ db, (inr (), mkDB (formfield_table db) (formfield_seq db) l (employee_seq db)).
Definition next_formfield_id : M Z :=
  λ db, (inr (formfield_seq db),
         mkDB (formfield_table db) (formfield_seq db + 1)
              (employee_table db) (employee_seq db)).
Definition next_employee_id : M Z :=
  λ db, (inr (employee_seq db),
         mkDB (formfield_table db) (formfield_seq db)
              (employee_table db) (employee_seq db + 1)).

(** ** The object managers *)

(** [Meta.ordering = ['order']]: rows come out by ascending [order]; rows
    of equal [order] stay in table order. *)
Fixpoint insert_by_order (f : FormField.t) (l : list FormField.t)
  : list FormField.t :=
  match l with
  | [] => [f]
  | g :: l' =>
      if decide (FormField.order f ≤ FormField.order g) then f :: l
      else g :: insert_by_order f l'
  end.

Definition order_by_order (l : list FormField.t) : list FormField.t :=
  foldr insert_by_order [] l.

(** The queryset [FormField.objects.filter(created_by=user)], evaluated. *)
Definition own_fields (db : DB) (user : Z) : list FormField.t :=
  order_by_order
    (filter (λ f, FormField.created_by f = user) (formfield_table db)).

(** The table after [filter(id=pk, created_by=user).update(order=idx)]. *)
Definition assign_order (user pk idx : Z) (table : list FormField.t)
  : list FormField.t :=
  (λ f, if decide (FormField.id f = pk ∧ FormField.created_by f = user)
        then FormField.set_order idx f else f) <$> table.

Module FormFieldObjects.

(** [FormField.objects.all()] *)
Definition all : M (list FormField.t) :=
  db ← get_db; mret (order_by_order (formfield_table db)).

(** [FormField.objects.filter(created_by=user)] *)
Definition filter_created_by (user : Z) : M (list FormField.t) :=
  db ← get_db; mret (own_fields db user).

(** [FormField.objects.create(label=, field_type=, required=, order=,
    created_by=)]; a caller that gives no [order] passes the default 0 of
    the column.  [create] runs no validator: [choices] is not looked at.
    The insert fails in the database: an [order] that does not fit the
    column cannot be bound, the columns are NOT NULL, and [order] is
    checked to be [>= 0]. *)
Definition create (label field_type : option string) (required : bool)
    (order : Z) (created_by : Z) : M FormField.t :=
  if decide (int64 order) then
    match label, field_type with
    | Some l, Some t =>
        if decide (0 ≤ order) then
          pk ← next_formfield_id;
          db ← get_db;
          let f := FormField.mk pk l t required order created_by in
          put_formfields (formfield_table db ++ [f]);;
          mret f
        else raise IntegrityError
    | _, _ => raise IntegrityError
    end
  else raise OverflowError.

(** [FormField.objects.filter(id=pk, created_by=user).update(order=idx)]:
    one UPDATE statement with the parameters [idx], [pk] and [user]; a
    row that would get a negative [order] violates the check of the
    column. *)
Definition update_order (pk user idx : Z) : M unit :=
  if decide (int64 pk ∧ int64 idx) then
    db ← get_db;
    if decide (idx < 0
               ∧ Exists (λ f, FormField.id f = pk ∧ FormField.created_by f = user)
                        (formfield_table db))
    then raise IntegrityError
    else put_formfields (assign_order user pk idx (formfield_table db))
  else raise OverflowError.

(** [instance.delete()] *)
Definition delete (instance : FormField.t) : M unit :=
  db ← get_db;
  put_formfields
    (filter (λ f, FormField.id f ≠ FormField.id instance) (formfield_table db)).

End FormFieldObjects.

(** The table after [employee.save()]: the row with the primary key of
    [employee] is overwritten. *)
Definition saved (employee : Employee.t) (table : list Employee.t)
  : list Employee.t :=
  (λ e, if decide (Employee.id e = Employee.id employee)
        then employee else e) <$> table.

Module EmployeeObjects.

(** [Employee.objects.all()] *)
Definition all : M (list Employee.t) :=
  db ← get_db; mret (employee_table db).

(** [Employee.objects.filter(user=user)] *)
Definition filter_user (user : Z) : M (list Employee.t) :=
  db ← get_db;
  mret (filter (λ e, Employee.user e = user) (employee_table db)).

(** [Employee.objects.get(pk=pk, user=user)] *)
Definition get (pk user : Z) : M Employee.t :=
  if decide (int64 pk) then
    db ← get_db;
    match filter (λ e, Employee.id e = pk ∧ Employee.user e = user)
                 (employee_table db) with
    | [] => raise DoesNotExist
    | [e] => mret e
    | _ => raise MultipleObjectsReturned
    end
  else raise OverflowError.

(** [Employee.objects.create(user=user, fields=fields)]: [user] is a
    [OneToOneField], so the insert violates the unique constraint when
    the table already has a row of that user. *)
Definition create (user : Z) (fields : Py.dict Entry.t) : M Employee.t :=
  db ← get_db;
  if decide (Exists (λ e, Employee.user e = user) (employee_table db))
  then raise IntegrityError
  else
    pk ← next_employee_id;
    let e := Employee.mk pk user fields in
    put_employees (employee_table db ++ [e]);;
    mret e.

(** [employee.save()] of a row read from the table: an UPDATE of the
    row with the primary key of [employee]. *)
Definition save (employee : Employee.t) : M unit :=
  db ← get_db;
  put_employees (saved employee (employee_table db)).

(** [employee.delete()] *)
Definition delete (employee : Employee.t) : M unit :=
  db ← get_db;
  put_employees
    (filter (λ e, Employee.id e ≠ Employee.id employee) (employee_table db)).

End EmployeeObjects.

(** ** Responses *)

Inductive Context :=
| form_design_ctx (fields : list FormField.t)
| employee_create_ctx (fields : list FormField.t)
| employee_list_ctx (employees : list Employee.t) (fields : list FormField.t)
                    (search_query : string)
| employee_edit_ctx (employee : Employee.t) (fields : list FormField.t).

Inductive Data :=
| formfield_data (f : FormField.t)
| formfield_list_data (l : list FormField.t)
| employee_data (e : Employee.t)
| employee_list_data (l : list Employee.t)
| errors_data (errors : list (string * string))
| detail_data (detail : string)
| no_data.

Inductive HttpResponse :=
| redirect (to : string)
| render (template_name : string) (context : Context)
| JsonResponse (data : list (string * string)) (status : Z)
| Response (data : Data) (status : Z).

(** ** The HTML views *)

Fixpoint for_each {A} (l : list A) (body : A → M unit) : M unit :=
  match l with
  | [] => mret ()
  | x :: l' => body x;; for_each l' body
  end.

(** [form_design_view]: [create] is called without [order]. *)
Definition form_design_view (request : Request.t) : M HttpResponse :=
  if decide (Request.method request = "POST") then
    let label := QueryDict.get (Request.POST request) "label" in
    let field_type := QueryDict.get (Request.POST request) "field_type" in
    let required :=
      bool_decide (QueryDict.get (Request.POST request) "required" = Some "on") in
    FormFieldObjects.create label field_type required 0 (Request.user request);;
    mret (redirect "form_design")
  else
    fields ← FormFieldObjects.filter_created_by (Request.user request);
    mret (render "form_design.html" (form_design_ctx fields)).

(** The loop shared by [employee_create_view] and [employee_edit_view]:
    [fields[field.label] = {'value': POST.get(f'field_{field.id}'),
    'type': field.field_type}] for every [field] of [form_fields]. *)
Definition fields_step (POST : QueryDict.t) (fields : Py.dict Entry.t)
    (field : FormField.t) : Py.dict Entry.t :=
  let field_value :=
    QueryDict.get POST ("field_" +:+ Py.str (FormField.id field)) in
  Py.setitem fields (FormField.label field)
             (Entry.mk field_value (FormField.field_type field)).

Definition fields_loop (POST : QueryDict.t) (form_fields : list FormField.t)
  : Py.dict Entry.t :=
  foldl (fields_step POST) [] form_fields.

(** [employee_create_view] *)
Definition employee_create_view (request : Request.t) : M HttpResponse :=
  if decide (Request.method request = "POST") then
    form_fields ← FormFieldObjects.filter_created_by (Request.user request);
    let fields := fields_loop (Request.POST request) form_fields in
    EmployeeObjects.create (Request.user request) fields;;
    mret (redirect "employee_list")
  else
    form_fields ← FormFieldObjects.filter_created_by (Request.user request);
    mret (render "employee_create.html" (employee_create_ctx form_fields)).

(** [employee_list_view] *)
Definition employee_list_view (request : Request.t) : M HttpResponse :=
  employees ← EmployeeObjects.filter_user (Request.user request);
  form_fields ← FormFieldObjects.filter_created_by (Request.user request);
  let search_query := QueryDict.get_default (Request.GET request) "search" "" in
  let employees :=
    if decide (search_query ≠ "") then
      filter (λ e, icontains (json.dumps (Employee.fields e)) search_query = true)
             employees
    else employees in
  mret (render "employee_list.html"
               (employee_list_ctx employees form_fields search_query)).

(** [employee_edit_view] *)
Definition employee_edit_view (request : Request.t) (pk : Z) : M HttpResponse :=
  employee ← EmployeeObjects.get pk (Request.user request);
  if decide (Request.method request = "POST") then
    form_fields ← FormFieldObjects.filter_created_by (Request.user request);
    let fields := fields_loop (Request.POST request) form_fields in
    EmployeeObjects.save (Employee.set_fields fields employee);;
    mret (redirect "employee_list")
  else
    form_fields ← FormFieldObjects.filter_created_by (Request.user request);
    mret (render "employee_edit.html" (employee_edit_ctx employee form_fields)).

(** [employee_delete_view] *)
Definition employee_delete_view (request : Request.t) (pk : Z) : M HttpResponse :=
  employee ← EmployeeObjects.get pk (Request.user request);
  EmployeeObjects.delete employee;;
  mret (redirect "employee_list").

(** [update_field_order]: the ids of [order[]] arrive as text and the
    lookup [id=field_id] converts each with [int].  [is_ajax] is the
    request method of that name, a flag of the request here. *)
Definition update_field_order (request : Request.t) : M HttpResponse :=
  if bool_decide (Request.method request = "POST") && Request.is_ajax request then
    let order := QueryDict.getlist (Request.POST request) "order[]" in
    for_each (Py.enumerate order) (λ '(idx, field_id),
      match Py.int field_id with
      | Some pk => FormFieldObjects.update_order pk (Request.user request) idx
      | None => raise ValueError
      end);;
    mret (JsonResponse [("status", "success")] 200)
  else
    mret (JsonResponse [("status", "error")] 400).

(** ** The API views *)

(** The payload of [FormFieldSerializer], parsed: [created_by] and
    [created_at] are read-only, the other columns are writable; a key
    the payload does not have is [None]. *)
Module FormFieldData.
Record t := mk {
  label : option string;
  field_type : option string;
  required : option bool;
  order : option Z;
}.
End FormFieldData.

(** The message of a [ChoiceField] for an input that is no choice: the
    input between double quotes, then the text. *)
Definition invalid_choice (input : string) : string :=
  String json.quote
    (input +:+ String json.quote EmptyString +:+ " is not a valid choice.").

(** [FormFieldSerializer.is_valid]: the validators a [ModelSerializer]
    derives from the columns of [FormField].  [label] is required, trimmed,
    not blank and at most 100 characters; [field_type] is required and one
    of the keys of [FIELD_TYPES]; [order] is optional and any integer
    passes: the column brings no bound of its own to the serializer, what
    the database refuses comes out of the insert. *)
Definition FormFieldSerializer_errors (data : FormFieldData.t)
  : list (string * string) :=
  match FormFieldData.label data with
  | None => [("label", "This field is required.")]
  | Some l =>
      if decide (Py.strip l = "") then
        [("label", "This field may not be blank.")]
      else if decide (100 < Z.of_nat (String.length (Py.strip l))) then
        [("label", "Ensure this field has no more than 100 characters.")]
      else []
  end
  ++ match FormFieldData.field_type data with
     | None => [("field_type", "This field is required.")]
     | Some t =>
         if decide (t ∈ FIELD_TYPES.*1) then []
         else [("field_type", invalid_choice t)]
     end.

Module FormFieldListCreateView.

Definition get_queryset (request : Request.t) : M (list FormField.t) :=
  FormFieldObjects.filter_created_by (Request.user request).

(** [GET api/form-fields/] *)
Definition list (request : Request.t) : M HttpResponse :=
  queryset ← get_queryset request;
  mret (Response (formfield_list_data queryset) 200).

(** [perform_create]: [serializer.save(created_by=request.user)]; the
    columns left out of the payload take the model's defaults. *)
Definition perform_create (request : Request.t) (data : FormFieldData.t)
  : M FormField.t :=
  FormFieldObjects.create
    (Py.strip <$> FormFieldData.label data)
    (FormFieldData.field_type data)
    (default true (FormFieldData.required data))
    (default 0 (FormFieldData.order data))
    (Request.user request).

(** [POST api/form-fields/] *)
Definition create (request : Request.t) (data : FormFieldData.t)
  : M HttpResponse :=
  match FormFieldSerializer_errors data with
  | [] =>
      f ← perform_create request data;
      mret (Response (formfield_data f) 201)
  | errors => mret (Response (errors_data errors) 400)
  end.

End FormFieldListCreateView.

(** [get_object]: the row of the queryset with the given [pk], or the
    404 response that [Http404] is turned into; the [pk] of the URL is a
    parameter of the query. *)
Definition not_found : HttpResponse :=
  Response (detail_data "Not found.") 404.

Module FormFieldRetrieveUpdateDestroyView.

Definition get_queryset (request : Request.t) : M (list FormField.t) :=
  FormFieldObjects.filter_created_by (Request.user request).

Definition get_object (request : Request.t) (pk : Z)
  : M (option FormField.t) :=
  queryset ← get_queryset request;
  if decide (int64 pk) then
    mret (head (filter (λ f, FormField.id f = pk) queryset))
  else raise OverflowError.

(** [GET api/form-fields/<pk>/] *)
Definition retrieve (request : Request.t) (pk : Z) : M HttpResponse :=
  instance ← get_object request pk;
  match instance with
  | Some f => mret (Response (formfield_data f) 200)
  | None => mret not_found
  end.

(** [DELETE api/form-fields/<pk>/] *)
Definition destroy (request : Request.t) (pk : Z) : M HttpResponse :=
  instance ← get_object request pk;
  match instance with
  | Some f => FormFieldObjects.delete f;; mret (Response no_data 204)
  | None => mret not_found
  end.

End FormFieldRetrieveUpdateDestroyView.

Module EmployeeSerializer.

(** [update(instance, validated_data)] for validated data without the
    key [user]: [user_data] is [None] and the nested serializer is not
    run.  [fields] stands for [validated_data.get('fields')]; the values
    considered are those of the shape the pages write, a label with its
    [{'value': ..., 'type': ...}]. *)
Definition update (instance : Employee.t) (fields : option (Py.dict Entry.t))
  : M Employee.t :=
  let instance :=
    Employee.set_fields (default (Employee.fields instance) fields) instance in
  EmployeeObjects.save instance;;
  mret instance.

End EmployeeSerializer.

Module EmployeeListCreateView.

(** No [get_queryset] is defined: the view lists its class attribute
    [queryset = Employee.objects.all()]. *)
Definition get_queryset (request : Request.t) : M (list Employee.t) :=
  EmployeeObjects.all.

(** [GET api/employees/] *)
Definition list (request : Request.t) : M HttpResponse :=
  queryset ← get_queryset request;
  mret (Response (employee_list_data queryset) 200).

End EmployeeListCreateView.

Module EmployeeRetrieveUpdateDestroyView.

Definition get_queryset (request : Request.t) : M (list Employee.t) :=
  EmployeeObjects.filter_user (Request.user request).

Definition get_object (request : Request.t) (pk : Z)
  : M (option Employee.t) :=
  queryset ← get_queryset request;
  if decide (int64 pk) then
    mret (head (filter (λ e, Employee.id e = pk) queryset))
  else raise OverflowError.

(** [GET api/employees/<pk>/] *)
Definition retrieve (request : Request.t) (pk : Z) : M HttpResponse :=
  instance ← get_object request pk;
  match instance with
  | Some e => mret (Response (employee_data e) 200)
  | None => mret not_found
  end.

(** [DELETE api/employees/<pk>/] *)
Definition destroy (request : Request.t) (pk : Z) : M HttpResponse :=
  instance ← get_object request pk;
  match instance with
  | Some e => EmployeeObjects.delete e;; mret (Response no_data 204)
  | None => mret not_found
  end.

(** [PATCH api/employees/<pk>/] with a payload that has no [user]:
    [fields] is the value of the key [fields], [None] when the payload
    has no such key either.  A partial update skips the keys that are
    missing, and the [JSONField] accepts what it is given. *)
Definition partial_update (request : Request.t) (pk : Z)
    (fields : option (Py.dict Entry.t)) : M HttpResponse :=
  instance ← get_object request pk;
  match instance with
  | Some e =>
      e' ← EmployeeSerializer.update e fields;
      mret (Response (employee_data e') 200)
  | None => mret not_found
  end.

End EmployeeRetrieveUpdateDestroyView.

(** * Vocabulary of the statements *)

(** The entry the loop writes for one form field. *)
Definition entry_of (POST : QueryDict.t) (field : FormField.t) : Entry.t :=
  Entry.mk (QueryDict.get POST ("field_" +:+ Py.str (FormField.id field)))
           (FormField.field_type field).

(** The form field of [form_fields] that is iterated last among those that
    carry the label [l]. *)
Definition last_labelled (l : string) (form_fields : list FormField.t)
  : option FormField.t :=
  last (filter (λ f, FormField.label f = l) form_fields).

(** The user already has a record. *)
Definition has_record (db : DB) (user : Z) : Prop :=
  Exists (λ e, Employee.user e = user) (employee_table db).

#[global] Instance has_record_dec db user : Decision (has_record db user).
Proof. unfold has_record. apply _. Defined.

(** The row [employee_create_view] inserts. *)
Definition created_record (request : Request.t) (db : DB) : Employee.t :=
  Employee.mk (employee_seq db) (Request.user request)
    (fields_loop (Request.POST request) (own_fields db (Request.user request))).

(** The primary key identifies a row. *)
Definition employee_pk_unique (db : DB) : Prop :=
  NoDup (Employee.id <$> employee_table db).

#[global] Instance employee_pk_unique_dec db : Decision (employee_pk_unique db).
Proof. unfold employee_pk_unique. apply _. Defined.

(** The assignments [order = idx], one per position of the sequence, in
    the order of the sequence. *)
Definition assign_all (user : Z) (table : list FormField.t)
    (steps : list (Z * Z)) : list FormField.t :=
  foldl (λ t '(idx, pk), assign_order user pk idx t) table steps.

(** One row under the same assignments. *)
Definition assign_row (user : Z) (f : FormField.t) (steps : list (Z * Z))
  : FormField.t :=
  foldl (λ f '(idx, pk),
           if decide (FormField.id f = pk ∧ FormField.created_by f = user)
           then FormField.set_order idx f else f) f steps.

(** An integer that the key column cannot hold, written with no more
    digits than the interpreter converts (4300 by default): the pages
    and the API receive it as an integer, from the URL or the payload. *)
Definition beyond_int64 (n : Z) : Prop := ¬ int64 n ∧ Z.abs n < 10 ^ 4300.

#[global] Instance beyond_int64_dec n : Decision (beyond_int64 n).
Proof. unfold beyond_int64. apply _. Defined.

(** A text of [order[]] that stands for an id: it is within the bound
    the interpreter puts on the digits [int] converts, [int] reads it,
    and the integer is one the key column holds. *)
Definition reads_id (s : string) (pk : Z) : Prop :=
  (String.length s ≤ 4300)%nat ∧ Py.int s = Some pk ∧ int64 pk.

#[global] Instance reads_id_dec s pk : Decision (reads_id s pk).
Proof. unfold reads_id. apply _. Defined.

(** The search term of a request. *)
Definition search_query (request : Request.t) : string :=
  QueryDict.get_default (Request.GET request) "search" "".

(** The slot the claim C4 expects: one more than the largest [order]
    among the user's form fields, 0 when the user has none. *)
Definition next_slot (db : DB) (user : Z) : Z :=
  match own_fields db user with
  | [] => 0
  | f :: fs => foldr Z.max (FormField.order f) (FormField.order <$> fs) + 1
  end.

(** The check of the column [order]: no stored order is negative. *)
Definition orders_nonneg (db : DB) : Prop :=
  Forall (λ f, 0 ≤ FormField.order f) (formfield_table db).

#[global] Instance orders_nonneg_dec db : Decision (orders_nonneg db).
Proof. unfold orders_nonneg. apply _. Defined.

(** ** Statements of the specification that the code does not meet *)

(** What the claim C1 says of one request, read literally: the view
    succeeds and the record it inserts holds, under the label of every form
    field of the user, the pair built from that very field. *)
Definition create_assigns_each_field (request : Request.t) (db : DB) : Prop :=
  ∃ e db',
    employee_create_view request db = (inr (redirect "employee_list"), db')
    ∧ employee_table db' = employee_table db ++ [e]
    ∧ ∀ f, f ∈ formfield_table db →
           FormField.created_by f = Request.user request →
           Py.get (Employee.fields e) (FormField.label f)
           = Some (entry_of (Request.POST request) f).

(** What the claim C5 says: once a record of the user has been created, a
    second creation succeeds as well and leaves the user with two records. *)
Definition second_create_succeeds (request1 request2 : Request.t) (db : DB)
  : Prop :=
  ∀ r1 db1, employee_create_view request1 db = (inr r1, db1) →
  ∃ r2 db2, employee_create_view request2 db1 = (inr r2, db2)
            ∧ length (filter (λ e, Employee.user e = Request.user request1)
                             (employee_table db2)) = 2%nat.


(** What the claim C4 says: the field that [form_design_view] appends
    takes the next slot. *)
Definition create_takes_next_slot (request : Request.t) (db : DB) : Prop :=
  ∀ r db', form_design_view request db = (inr r, db') →
  ∃ f, formfield_table db' = formfield_table db ++ [f]
       ∧ FormField.order f = next_slot db (Request.user request).


(** ** Concrete databases and requests *)

Module Examples.

Definition querydict (l : list (string * list string)) : QueryDict.t :=
  list_to_map l.

Definition first_name := FormField.mk 1 "Name" "text" true 0 7.
Definition second_name := FormField.mk 2 "Name" "number" false 0 7.
Definition age := FormField.mk 3 "Age" "number" true 1 7.
Definition foreign := FormField.mk 4 "Salary" "number" true 0 8.

(** User 7 has two fields labelled [Name] and no record. *)
Definition db_two_names : DB :=
  mkDB [age; first_name; second_name; foreign] 5 [] 1.

(** User 7 has one field and already one record. *)
Definition smith : Employee.t :=
  Employee.mk 1 7 [("Name", Entry.mk (Some "Smith") "text")].
Definition db_smith : DB := mkDB [first_name; foreign] 5 [smith] 2.

(** User 7 has fields of distinct labels and no record. *)
Definition db_fresh : DB := mkDB [age; first_name; foreign] 5 [] 1.

Definition post_names : Request.t :=
  Request.mk 7 "POST" ∅
    (querydict [("field_1", ["Smith"]); ("field_2", ["42"])]) false.

Definition post_nothing : Request.t := Request.mk 7 "POST" ∅ ∅ false.



End Examples.

(** * Further vocabulary *)

(** The constraints of the schema: a primary key identifies its row and
    lies below the sequence that hands out the next one, and no two
    records share their user ([OneToOneField]). *)
Definition db_wf (db : DB) : Prop :=
  NoDup (FormField.id <$> formfield_table db)
  ∧ Forall (λ f, FormField.id f < formfield_seq db) (formfield_table db)
  ∧ NoDup (Employee.id <$> employee_table db)
  ∧ Forall (λ e, Employee.id e < employee_seq db) (employee_table db)
  ∧ NoDup (Employee.user <$> employee_table db).

#[global] Instance db_wf_dec db : Decision (db_wf db).
Proof. unfold db_wf. apply _. Defined.

(** The successful answer of [update_field_order]. *)
Definition reorder_success : HttpResponse :=
  JsonResponse [("status", "success")] 200.




(** No character of the string is white space. *)
Fixpoint nospace (s : string) : bool :=
  match s with
  | EmptyString => true
  | String c s' => negb (Py.isspace c) && nospace s'
  end.

(** The POST key under which the value of a form field is submitted. *)
Definition field_key (f : FormField.t) : string :=
  "field_" +:+ Py.str (FormField.id f).


(** The POST that submits, for every form field of the list, the value
    [vals] gives to its id. *)
Definition post_of (vals : Z → string) (form_fields : list FormField.t)
  : QueryDict.t :=
  list_to_map ((λ f, (field_key f, [vals (FormField.id f)])) <$> form_fields).



(** * Accounts

    [CustomUser], its manager and the pages that register, log in and
    change the password.  The users live in a table of their own; the
    session of the client is the third component of the state.  Of the
    columns [AbstractUser] brings along, the time stamps, the groups and
    [is_active] (left at its default by all the code below) are not
    modelled.  Four functions of the framework are parameters:
    [normalize_email], [make_password] (of the raw password, [None] for
    an unusable one), [check_password] (of the raw password and the
    stored hash) and [session_auth_hash] (of the stored hash: the keyed
    digest [get_session_auth_hash] computes from the column
    [password]). *)

Module CustomUser.
Record t := mk {
  id : Z;
  email : string;                 (* unique *)
  password : string;              (* the hash *)
  first_name : string;
  last_name : string;
  phone : option string;
  address : option string;
  is_staff : bool;
  is_superuser : bool;
}.

#[global] Instance eq_dec : EqDecision t.
Proof. solve_decision. Defined.

Definition with_password (encoded : string) (u : t) : t :=
  mk (id u) (email u) encoded (first_name u) (last_name u) (phone u)
     (address u) (is_staff u) (is_superuser u).
End CustomUser.

(** The keyword arguments [**extra_fields]: each may be absent; one that
    is given may be [None] where the column is text. *)
Module ExtraFields.
Record t := mk {
  first_name : option (option string);
  last_name : option (option string);
  phone : option (option string);
  address : option (option string);
  is_staff : option bool;
  is_superuser : option bool;
}.

Definition none : t := mk None None None None None None.

(** [extra_fields.setdefault('is_staff', True)] and the same for
    [is_superuser]. *)
Definition setdefault_staff (x : t) : t :=
  mk (first_name x) (last_name x) (phone x) (address x)
     (Some (default true (is_staff x))) (is_superuser x).
Definition setdefault_superuser (x : t) : t :=
  mk (first_name x) (last_name x) (phone x) (address x)
     (is_staff x) (Some (default true (is_superuser x))).
End ExtraFields.

(** What [login] writes into the session: the keys [_auth_user_id] and
    [_auth_user_hash]. *)
Module Session.
Record t := mk {
  auth_user_id : Z;
  auth_user_hash : string;
}.

#[global] Instance eq_dec : EqDecision t.
Proof. solve_decision. Defined.
End Session.

Record Accounts := mkAccounts {
  user_table : list CustomUser.t;
  user_seq : Z;
  session : option Session.t;     (* [None]: no user in the session *)
}.

Inductive AccountResponse :=
| render_page (template_name : string) (error : option string)
| render_profile (user : CustomUser.t)
| redirect_to (to : string)
| redirect_to_login.              (* what [login_required] answers *)

(** [if not x] for a value read from a [QueryDict]. *)
Definition falsy (x : option string) : bool :=
  match x with
  | None => true
  | Some s => bool_decide (s = "")
  end.

(** [CustomUser.objects.filter(email=email)]; a [None] is compared with
    [IS NULL], which no row satisfies. *)
Definition users_with_email (email : option string) (st : Accounts)
  : list CustomUser.t :=
  match email with
  | Some e => filter (λ u, CustomUser.email u = e) (user_table st)
  | None => []
  end.

(** [user.save()] of a row read from the table. *)
Definition save_user (user : CustomUser.t) (st : Accounts) : Accounts :=
  mkAccounts
    ((λ u, if decide (CustomUser.id u = CustomUser.id user) then user else u)
       <$> user_table st)
    (user_seq st) (session st).

Section accounts.
Variable normalize_email : string → string.
Variable make_password : option string → string.
Variable check_password : option string → string → bool.
Variable session_auth_hash : string → string.

(** [get_user(request)], what reading [request.user] runs: the user the
    session names, provided the hash the session carries is the one of
    the password this user has now.  A session whose hash does not
    verify is flushed, and the request is anonymous. *)
Definition get_user (st : Accounts) : option CustomUser.t * Accounts :=
  match session st with
  | Some s =>
      match head (filter (λ u, CustomUser.id u = Session.auth_user_id s)
                         (user_table st)) with
      | Some user =>
          if decide (Session.auth_user_hash s ≠ ""
                     ∧ Session.auth_user_hash s
                       = session_auth_hash (CustomUser.password user))
          then (Some user, st)
          else (None, mkAccounts (user_table st) (user_seq st) None)
      | None => (None, st)
      end
  | None => (None, st)
  end.

(** [request.user] of a page behind [login_required]. *)
Definition request_user (st : Accounts) : option CustomUser.t :=
  (get_user st).1.

(** [user = self.model(email=email, **extra_fields);
    user.set_password(password); user.save()]: the text columns that are
    not given take the empty string, [phone] and [address] take NULL, the
    flags take [False].  The insert fails when a NOT NULL column is given
    [None] or the email is taken. *)
Definition insert_user (email : string) (password : option string)
    (extra : ExtraFields.t) (st : Accounts)
  : (Exception + CustomUser.t) * Accounts :=
  match default (Some "") (ExtraFields.first_name extra),
        default (Some "") (ExtraFields.last_name extra) with
  | Some first_name, Some last_name =>
      if decide (Exists (λ u, CustomUser.email u = email) (user_table st))
      then (inl IntegrityError, st)
      else
        let user :=
          CustomUser.mk (user_seq st) email (make_password password)
            first_name last_name
            (default None (ExtraFields.phone extra))
            (default None (ExtraFields.address extra))
            (default false (ExtraFields.is_staff extra))
            (default false (ExtraFields.is_superuser extra)) in
        (inr user,
         mkAccounts (user_table st ++ [user]) (user_seq st + 1) (session st))
  | _, _ => (inl IntegrityError, st)
  end.

(** [CustomUserManager.create_user] *)
Definition create_user (email password : option string)
    (extra_fields : ExtraFields.t) (st : Accounts)
  : (Exception + CustomUser.t) * Accounts :=
  if falsy email then (inl ValueError, st)
  else
    let email := normalize_email (default "" email) in
    insert_user email password extra_fields st.

(** [CustomUserManager.create_superuser] *)
Definition create_superuser (email password : option string)
    (extra_fields : ExtraFields.t) (st : Accounts)
  : (Exception + CustomUser.t) * Accounts :=
  let extra_fields := ExtraFields.setdefault_staff extra_fields in
  let extra_fields := ExtraFields.setdefault_superuser extra_fields in
  if decide (ExtraFields.is_staff extra_fields ≠ Some true) then
    (inl ValueError, st)
  else if decide (ExtraFields.is_superuser extra_fields ≠ Some true) then
    (inl ValueError, st)
  else create_user email password extra_fields st.

(** [register_view] *)
Definition register_view (request : Request.t) (st : Accounts)
  : (Exception + AccountResponse) * Accounts :=
  if decide (Request.method request = "POST") then
    let email := QueryDict.get (Request.POST request) "email" in
    let first_name := QueryDict.get (Request.POST request) "first_name" in
    let last_name := QueryDict.get (Request.POST request) "last_name" in
    let password := QueryDict.get (Request.POST request) "password" in
    let password2 := QueryDict.get (Request.POST request) "password2" in
    if decide (password ≠ password2) then
      (inr (render_page "register.html" (Some "Passwords do not match")), st)
    else if decide (users_with_email email st ≠ []) then
      (inr (render_page "register.html" (Some "Email already exists")), st)
    else
      match create_user email password
              (ExtraFields.mk (Some first_name) (Some last_name)
                              None None None None) st with
      | (inr user, st') => (inr (render_page "login.html" None), st')
      | (inl e, st') => (inl e, st')
      end
  else (inr (render_page "login.html" None), st).

(** [login_view]; [login(request, user)] puts the user into the session,
    together with the hash of the user's password. *)
Definition login_view (request : Request.t) (st : Accounts)
  : (Exception + AccountResponse) * Accounts :=
  if decide (Request.method request = "POST") then
    let email := QueryDict.get (Request.POST request) "email" in
    let password := QueryDict.get (Request.POST request) "password" in
    if falsy email || falsy password then
      (inr (render_page "login.html"
              (Some "Please enter both email and password.")), st)
    else
      match head (users_with_email email st) with
      | Some user =>
          if check_password password (CustomUser.password user) then
            (inr (redirect_to "profile"),
             mkAccounts (user_table st) (user_seq st)
               (Some (Session.mk (CustomUser.id user)
                        (session_auth_hash (CustomUser.password user)))))
          else
            (inr (render_page "login.html"
                    (Some "Incorrect email or password.")), st)
      | None =>
          (inr (render_page "login.html"
                  (Some "Incorrect email or password.")), st)
      end
  else (inr (render_page "login.html" None), st).

(** [profile_view] *)
Definition profile_view (request : Request.t) (st : Accounts)
  : (Exception + AccountResponse) * Accounts :=
  match get_user st with
  | (Some user, st) => (inr (render_profile user), st)
  | (None, st) => (inr redirect_to_login, st)
  end.

(** [logout_view] *)
Definition logout_view (request : Request.t) (st : Accounts)
  : (Exception + AccountResponse) * Accounts :=
  match get_user st with
  | (Some user, st) =>
      (inr (redirect_to "login"),
       mkAccounts (user_table st) (user_seq st) None)
  | (None, st) => (inr redirect_to_login, st)
  end.

(** [change_password_view]: the new password is saved and the session
    is left as it is, with the hash of the old one. *)
Definition change_password_view (request : Request.t) (st : Accounts)
  : (Exception + AccountResponse) * Accounts :=
  match get_user st with
  | (Some user, st) =>
      if decide (Request.method request = "POST") then
        let old_password := QueryDict.get (Request.POST request) "old_password" in
        let new_password := QueryDict.get (Request.POST request) "new_password" in
        let new_password2 := QueryDict.get (Request.POST request) "new_password2" in
        if decide (new_password ≠ new_password2) then
          (inr (render_page "change_password.html"
                  (Some "New passwords do not match")), st)
        else if negb (check_password old_password (CustomUser.password user)) then
          (inr (render_page "change_password.html"
                  (Some "Old password is incorrect")), st)
        else
          (inr (redirect_to "login"),
           save_user (CustomUser.with_password (make_password new_password) user)
                     st)
      else (inr (render_page "change_password.html" None), st)
  | (None, st) => (inr redirect_to_login, st)
  end.

End accounts.

(** [UpdateUserSerializer.validate_email] for the user [pk] of the
    request: [inl] is the [ValidationError]. *)
Definition validate_email (pk : Z) (value : string) (st : Accounts)
  : string + string :=
  if decide (Exists (λ u, CustomUser.id u ≠ pk ∧ CustomUser.email u = value)
                    (user_table st))
  then inl "This email is already in use."
  else inr value.

(** A hasher to run the account pages on concrete input. *)
Module Toy.
Definition make_password (raw : option string) : string :=
  match raw with Some p => "hash$" +:+ p | None => "!" end.
Definition check_password (raw : option string) (encoded : string) : bool :=
  match raw with
  | Some p => bool_decide (encoded = "hash$" +:+ p)
  | None => false
  end.
Definition session_auth_hash (encoded : string) : string := "hmac$" +:+ encoded.
Definition ann : CustomUser.t :=
  CustomUser.mk 1 "ann@example.org" (make_password (Some "secret"))
                "Ann" "Lee" None None false false.
Definition accounts : Accounts := mkAccounts [ann] 2 None.

(** [ann] is logged in. *)
Definition ann_session : Session.t :=
  Session.mk 1 (session_auth_hash (CustomUser.password ann)).
Definition accounts_ann : Accounts := mkAccounts [ann] 2 (Some ann_session).
End Toy.


(** The constraints of the table of users: the primary key and the email
    are unique, and the keys lie below the sequence. *)
Definition accounts_wf (st : Accounts) : Prop :=
  NoDup (CustomUser.id <$> user_table st)
  ∧ Forall (λ u, CustomUser.id u < user_seq st) (user_table st)
  ∧ NoDup (CustomUser.email <$> user_table st).

#[global] Instance accounts_wf_dec st : Decision (accounts_wf st).
Proof. unfold accounts_wf. apply _. Defined.

(** * Properties *)

(** Closed decidable side conditions are settled by evaluation. *)
Ltac by_evaluation := apply (bool_decide_unpack _); vm_compute; exact I.

(** ** Running a computation *)

Lemma bind_inr {A B} (m : M A) (k : A → M B) db a db' :
  m db = (inr a, db') → (m ≫= k) db = k a db'.
Proof. unfold mbind, M_bind, bind. by intros ->. Qed.

Lemma bind_inl {A B} (m : M A) (k : A → M B) db e db' :
  m db = (inl e, db') → (m ≫= k) db = (inl e, db').
Proof. unfold mbind, M_bind, bind. by intros ->. Qed.

(** ** Dictionaries *)

Section dict.
Context {V : Type}.
Implicit Types (d : Py.dict V) (k : string) (v : V).

Lemma get_setitem_eq d k v : Py.get (Py.setitem d k v) k = Some v.
Proof.
  induction d as [|[k' v'] d IH]; simpl; repeat case_decide; simpl;
    repeat case_decide; congruence.
Qed.

Lemma get_setitem_ne d k k' v :
  k ≠ k' → Py.get (Py.setitem d k v) k' = Py.get d k'.
Proof.
  intros Hne. induction d as [|[k0 v0] d IH]; simpl; repeat case_decide;
    simpl; repeat case_decide; congruence.
Qed.

Lemma keys_setitem d k v :
  Py.keys (Py.setitem d k v)
  = if decide (k ∈ Py.keys d) then Py.keys d else Py.keys d ++ [k].
Proof.
  unfold Py.keys. induction d as [|[k' v'] d IH]; csimpl.
  - done.
  - destruct (decide (k' = k)) as [->|Hne]; csimpl.
    + rewrite decide_True by left. done.
    + rewrite IH. destruct (decide (k ∈ d.*1)) as [Hin|Hnin].
      * rewrite decide_True by (by right). done.
      * rewrite decide_False; [done|].
        intros [?|?]%elem_of_cons; congruence.
Qed.

Lemma NoDup_keys_setitem d k v :
  NoDup (Py.keys d) → NoDup (Py.keys (Py.setitem d k v)).
Proof.
  intros Hd. rewrite keys_setitem. case_decide as Hin; [done|].
  apply NoDup_app. split_and!; [done| |apply NoDup_singleton].
  intros x Hx. rewrite list_elem_of_singleton. by intros ->.
Qed.

Lemma elem_of_keys_setitem d k v k' :
  k' ∈ Py.keys (Py.setitem d k v) ↔ k' = k ∨ k' ∈ Py.keys d.
Proof.
  rewrite keys_setitem. case_decide as Hin.
  - split; [by right | by intros [->|?]].
  - rewrite elem_of_app, list_elem_of_singleton. tauto.
Qed.

Lemma get_None d k : Py.get d k = None ↔ k ∉ Py.keys d.
Proof.
  unfold Py.keys. induction d as [|[k' v'] d IH]; csimpl.
  - split; [intros _ H; by apply elem_of_nil in H | done].
  - rewrite not_elem_of_cons. destruct (decide (k' = k)) as [->|Hk].
    + split; [done | by intros []].
    + rewrite IH. split; [by split | by intros []].
Qed.

Lemma filter_key_absent d k :
  k ∉ Py.keys d → filter (λ kv, kv.1 = k) d = [].
Proof.
  unfold Py.keys. induction d as [|[k' v'] d IH]; [done|].
  rewrite fmap_cons. intros [Hne Hnin]%not_elem_of_cons.
  rewrite filter_cons_False by (intros ?; by apply Hne). by apply IH.
Qed.

(** With one binding per key, the binding read by [get] is the only one
    under its key. *)
Lemma get_Some_filter d k v :
  NoDup (Py.keys d) → Py.get d k = Some v →
  filter (λ kv, kv.1 = k) d = [(k, v)].
Proof.
  unfold Py.keys. induction d as [|[k' v'] d IH]; [done|].
  rewrite fmap_cons. intros [Hnin Hd]%NoDup_cons Hget.
  cbn [Py.get] in Hget. simpl in Hnin.
  destruct (decide (k' = k)) as [->|Hk].
  - injection Hget as ->. rewrite filter_cons_True by done.
    f_equal. by apply filter_key_absent.
  - rewrite filter_cons_False by done. by apply IH.
Qed.

End dict.

(** ** The default ordering of form fields *)

Lemma insert_by_order_Permutation f l : insert_by_order f l ≡ₚ f :: l.
Proof.
  induction l as [|g l IH]; simpl; [done|].
  case_decide; [done|]. rewrite IH. apply Permutation_swap.
Qed.

Lemma order_by_order_Permutation l : order_by_order l ≡ₚ l.
Proof.
  induction l as [|f l IH]; simpl; [done|].
  by rewrite insert_by_order_Permutation, IH.
Qed.

Lemma elem_of_own_fields db user f :
  f ∈ own_fields db user
  ↔ f ∈ formfield_table db ∧ FormField.created_by f = user.
Proof.
  unfold own_fields. rewrite order_by_order_Permutation, list_elem_of_filter.
  tauto.
Qed.

Lemma filter_created_by_run user db :
  FormFieldObjects.filter_created_by user db = (inr (own_fields db user), db).
Proof. reflexivity. Qed.

(** ** The loop that builds [fields] *)

Section fields_loop.
Variable POST : QueryDict.t.

Lemma foldl_fields_step_get form_fields d l :
  Py.get (foldl (fields_step POST) d form_fields) l
  = match last_labelled l form_fields with
    | Some f => Some (entry_of POST f)
    | None => Py.get d l
    end.
Proof.
  unfold last_labelled.
  revert d. induction form_fields as [|f fs IH]; intros d; [done|].
  cbn [foldl]. rewrite IH, filter_cons.
  destruct (decide (FormField.label f = l)) as [<-|Hne].
  - rewrite last_cons. destruct (last (filter _ fs)); [done|].
    unfold fields_step. by rewrite get_setitem_eq.
  - destruct (last (filter _ fs)); [done|].
    unfold fields_step. by rewrite get_setitem_ne.
Qed.

Lemma fields_loop_get form_fields l :
  Py.get (fields_loop POST form_fields) l
  = entry_of POST <$> last_labelled l form_fields.
Proof.
  unfold fields_loop. rewrite foldl_fields_step_get.
  by destruct (last_labelled l form_fields).
Qed.

Lemma foldl_fields_step_NoDup form_fields d :
  NoDup (Py.keys d) → NoDup (Py.keys (foldl (fields_step POST) d form_fields)).
Proof.
  revert d. induction form_fields as [|f fs IH]; intros d Hd; [done|].
  cbn [foldl]. apply IH. unfold fields_step. by apply NoDup_keys_setitem.
Qed.

Lemma fields_loop_NoDup form_fields :
  NoDup (Py.keys (fields_loop POST form_fields)).
Proof. apply foldl_fields_step_NoDup. constructor. Qed.

Lemma foldl_fields_step_keys form_fields d l :
  l ∈ Py.keys (foldl (fields_step POST) d form_fields)
  ↔ l ∈ Py.keys d ∨ l ∈ FormField.label <$> form_fields.
Proof.
  revert d. induction form_fields as [|f fs IH]; intros d.
  - simpl. rewrite elem_of_nil. tauto.
  - cbn [foldl]. rewrite IH. unfold fields_step.
    rewrite elem_of_keys_setitem, fmap_cons, elem_of_cons. tauto.
Qed.

Lemma fields_loop_keys form_fields l :
  l ∈ Py.keys (fields_loop POST form_fields)
  ↔ l ∈ FormField.label <$> form_fields.
Proof.
  unfold fields_loop. rewrite foldl_fields_step_keys.
  unfold Py.keys at 1. simpl. rewrite elem_of_nil. tauto.
Qed.

(** One entry per distinct label: never more entries than fields, and
    fewer as soon as two fields share a label. *)
Lemma fields_loop_length form_fields :
  (length (fields_loop POST form_fields) ≤ length form_fields)%nat.
Proof.
  rewrite <-(length_fmap fst (fields_loop POST form_fields)).
  rewrite <-(length_fmap FormField.label form_fields).
  apply submseteq_length, NoDup_submseteq; [apply fields_loop_NoDup|].
  intros l. apply fields_loop_keys.
Qed.

Lemma fields_loop_length_lt form_fields :
  ¬ NoDup (FormField.label <$> form_fields) →
  (length (fields_loop POST form_fields) < length form_fields)%nat.
Proof.
  intros Hdup. pose proof (fields_loop_length form_fields) as Hle.
  destruct (decide (length (fields_loop POST form_fields)
                    = length form_fields)) as [Heq|]; [|lia].
  destruct Hdup.
  assert (Py.keys (fields_loop POST form_fields)
          ≡ₚ FormField.label <$> form_fields) as <-.
  { apply submseteq_length_Permutation.
    - apply NoDup_submseteq; [apply fields_loop_NoDup|].
      intros l. apply fields_loop_keys.
    - unfold Py.keys. rewrite !length_fmap. lia. }
  apply fields_loop_NoDup.
Qed.

End fields_loop.

(** ** Creating a record *)

Lemma employee_create_view_post request db :
  Request.method request = "POST" →
  ¬ has_record db (Request.user request) →
  employee_create_view request db
  = (inr (redirect "employee_list"),
     mkDB (formfield_table db) (formfield_seq db)
          (employee_table db ++ [created_record request db])
          (employee_seq db + 1)).
Proof.
  intros Hm Hfree. unfold employee_create_view.
  rewrite decide_True by done.
  erewrite bind_inr by apply filter_created_by_run.
  unfold EmployeeObjects.create.
  erewrite bind_inr; [|erewrite bind_inr by reflexivity].
  2: { rewrite decide_False by done. reflexivity. }
  reflexivity.
Qed.

Lemma employee_create_view_post_taken request db :
  Request.method request = "POST" →
  has_record db (Request.user request) →
  employee_create_view request db = (inl IntegrityError, db).
Proof.
  intros Hm Htaken. unfold employee_create_view.
  rewrite decide_True by done.
  erewrite bind_inr by apply filter_created_by_run.
  unfold EmployeeObjects.create.
  erewrite bind_inl; [reflexivity|].
  erewrite bind_inr by reflexivity.
  rewrite decide_True by done. reflexivity.
Qed.

Lemma last_labelled_Some l form_fields f :
  f ∈ form_fields → FormField.label f = l →
  ∃ g, last_labelled l form_fields = Some g
       ∧ g ∈ form_fields ∧ FormField.label g = l.
Proof.
  intros Hin Hl. unfold last_labelled.
  destruct (last (filter (λ f, FormField.label f = l) form_fields))
    as [g|] eqn:Hlast.
  - exists g. split; [done|].
    apply last_Some_elem_of, list_elem_of_filter in Hlast. tauto.
  - apply last_None in Hlast. exfalso.
    by eapply (filter_nil_not_elem_of (λ f, FormField.label f = l)).
Qed.


Lemma QueryDict_get_empty key : QueryDict.get ∅ key = None.
Proof. unfold QueryDict.get. by rewrite lookup_empty. Qed.

(** C1, as stated, fails on the code in two ways.  With two fields of one
    label the entry under that label is built from the field iterated
    last, so the earlier field does not get its own pair; and the view
    raises [IntegrityError] for a user who already has a record. *)
Lemma create_assigns_each_field_fails :
  ¬ create_assigns_each_field Examples.post_names Examples.db_two_names
  ∧ ¬ create_assigns_each_field Examples.post_names Examples.db_smith.
Proof.
  split.
  - intros (e & db' & Hrun & Htable & Hfields).
    rewrite employee_create_view_post in Hrun
      by (reflexivity || by_evaluation).
    injection Hrun as <-. simpl in Htable. injection Htable as <-.
    specialize (Hfields Examples.first_name).
    vm_compute in Hfields. discriminate Hfields; [|done].
    right; left.
  - intros (e & db' & Hrun & _).
    rewrite employee_create_view_post_taken in Hrun
      by (reflexivity || by_evaluation).
    discriminate.
Qed.

(** C1, amended: for a user who has no record yet, and for every POST,
    [employee_create_view] succeeds and inserts a record of that user whose
    [fields] hold, under the label of each form field [f] of the user, the
    pair [{value, type}] of the form field [g] iterated last among those
    carrying that label: the value submitted under [field_<g.id>], [None]
    when there is none, and the type of [g].  When no other field of the
    user carries the label, [g] is [f] itself.  With an empty POST every
    value is [None].  No hypothesis mentions [required]: the flag is not
    consulted. *)
Theorem employee_create_view_values (request : Request.t) (db : DB) :
  Request.method request = "POST" →
  ¬ has_record db (Request.user request) →
  let user := Request.user request in
  let POST := Request.POST request in
  let e := created_record request db in
  employee_create_view request db
  = (inr (redirect "employee_list"),
     mkDB (formfield_table db) (formfield_seq db)
          (employee_table db ++ [e]) (employee_seq db + 1))
  ∧ Employee.user e = user
  ∧ (∀ f, f ∈ formfield_table db → FormField.created_by f = user →
       ∃ g, last_labelled (FormField.label f) (own_fields db user) = Some g
            ∧ g ∈ formfield_table db
            ∧ FormField.created_by g = user
            ∧ FormField.label g = FormField.label f
            ∧ Py.get (Employee.fields e) (FormField.label f)
              = Some (Entry.mk
                        (QueryDict.get POST
                           ("field_" +:+ Py.str (FormField.id g)))
                        (FormField.field_type g))
            ∧ ((∀ h, h ∈ formfield_table db → FormField.created_by h = user →
                     FormField.label h = FormField.label f → h = f) →
               g = f))
  ∧ (POST = ∅ →
     ∀ f, f ∈ formfield_table db → FormField.created_by f = user →
          Entry.value <$> Py.get (Employee.fields e) (FormField.label f)
          = Some None)
  ∧ (∀ l, is_Some (Py.get (Employee.fields e) l) →
          ∃ f, f ∈ formfield_table db ∧ FormField.created_by f = user
               ∧ FormField.label f = l).
Proof.
  intros Hm Hfree user POST e.
  assert (∀ f, f ∈ formfield_table db → FormField.created_by f = user →
     ∃ g, last_labelled (FormField.label f) (own_fields db user) = Some g
          ∧ g ∈ formfield_table db ∧ FormField.created_by g = user
          ∧ FormField.label g = FormField.label f
          ∧ Py.get (Employee.fields e) (FormField.label f)
            = Some (entry_of POST g)) as Hpairs.
  { intros f Hf Hu.
    destruct (last_labelled_Some (FormField.label f) (own_fields db user) f)
      as (g & Hlast & Hg & Hl); [by apply elem_of_own_fields|done|].
    apply elem_of_own_fields in Hg as [Hg Hgu].
    exists g. split_and!; try done.
    subst e. unfold created_record. cbn [Employee.fields].
    fold user POST. by rewrite fields_loop_get, Hlast. }
  split_and!.
  - by apply employee_create_view_post.
  - done.
  - intros f Hf Hu. destruct (Hpairs f Hf Hu) as (g & ? & ? & ? & ? & ?).
    exists g. split_and!; try done. intros Huniq. by apply Huniq.
  - intros Hempty f Hf Hu. destruct (Hpairs f Hf Hu) as (g & _ & _ & _ & _ & ->).
    unfold entry_of. rewrite Hempty, QueryDict_get_empty. done.
  - intros l [v Hv]. subst e. unfold created_record in Hv.
    cbn [Employee.fields] in Hv.
    assert (l ∈ FormField.label <$> own_fields db (Request.user request))
      as (f & -> & Hf)%list_elem_of_fmap.
    { apply fields_loop_keys with (POST := Request.POST request).
      destruct (decide (l ∈ Py.keys (fields_loop (Request.POST request)
                  (own_fields db (Request.user request))))) as [|Hn]; [done|].
      apply get_None in Hn. congruence. }
    apply elem_of_own_fields in Hf as [Hf Hu]. by exists f.
Qed.

Lemma employee_create_view_values_witness :
  Request.method Examples.post_names = "POST"
  ∧ ¬ has_record Examples.db_fresh (Request.user Examples.post_names)
  ∧ employee_create_view Examples.post_names Examples.db_fresh
    = (inr (redirect "employee_list"),
       mkDB (formfield_table Examples.db_fresh) 5
            [created_record Examples.post_names Examples.db_fresh] 2).
Proof.
  split; [reflexivity|]. split; [by_evaluation|].
  apply (employee_create_view_values Examples.post_names Examples.db_fresh).
  - reflexivity.
  - by_evaluation.
Defined.

Lemma filter_not_Exists {A} (P : A → Prop) `{∀ x, Decision (P x)} (l : list A) :
  ¬ Exists P l → filter P l = [].
Proof.
  induction l as [|x l IH]; [done|]. rewrite Exists_cons. intros Hn.
  rewrite filter_cons_False by tauto. apply IH. tauto.
Qed.

(** C5, as stated, fails on the code: the second creation raises. *)
Lemma second_create_fails :
  ¬ second_create_succeeds Examples.post_names Examples.post_nothing
      Examples.db_fresh.
Proof.
  intros Hsecond.
  destruct (Hsecond _ _ (employee_create_view_post Examples.post_names
                           Examples.db_fresh eq_refl ltac:(by_evaluation)))
    as (r2 & db2 & Hrun & _).
  rewrite employee_create_view_post_taken in Hrun
    by (reflexivity || by_evaluation).
  discriminate.
Qed.

(** C5, amended: one account owns at most one record.  A creation
    succeeds exactly when the user has no record; after a creation has
    succeeded, every further creation by the same user raises
    [IntegrityError] and changes nothing, and the user has exactly the one
    record that was created.  A table with at most one record per user
    stays so. *)
Theorem employee_create_view_one_record (request1 request2 : Request.t) (db : DB) :
  Request.method request1 = "POST" →
  Request.method request2 = "POST" →
  Request.user request2 = Request.user request1 →
  ((∃ r db', employee_create_view request1 db = (inr r, db'))
   ↔ ¬ has_record db (Request.user request1))
  ∧ (has_record db (Request.user request1) →
     employee_create_view request1 db = (inl IntegrityError, db))
  ∧ (∀ r1 db1, employee_create_view request1 db = (inr r1, db1) →
       employee_create_view request2 db1 = (inl IntegrityError, db1)
       ∧ filter (λ e, Employee.user e = Request.user request1)
                (employee_table db1)
         = [created_record request1 db])
  ∧ (NoDup (Employee.user <$> employee_table db) →
     NoDup (Employee.user <$> employee_table (employee_create_view request1 db).2)).
Proof.
  intros Hm1 Hm2 Hu.
  split_and!.
  4: { intros Hnd.
    destruct (decide (has_record db (Request.user request1))) as [Htaken|Hfree].
    - by rewrite employee_create_view_post_taken.
    - rewrite employee_create_view_post by done. cbn [snd employee_table].
      rewrite fmap_app. apply NoDup_app. split_and!; [done| |apply NoDup_singleton].
      intros u (e & -> & He)%list_elem_of_fmap Heq.
      apply list_elem_of_singleton in Heq.
      apply Hfree. apply Exists_exists. by exists e. }
  - split.
    + intros (r & db' & Hrun) Htaken.
      rewrite employee_create_view_post_taken in Hrun by done. discriminate.
    + intros Hfree. eexists _, _. by apply employee_create_view_post.
  - by apply employee_create_view_post_taken.
  - intros r1 db1 Hrun.
    destruct (decide (has_record db (Request.user request1))) as [Htaken|Hfree].
    { rewrite employee_create_view_post_taken in Hrun by done. discriminate. }
    rewrite employee_create_view_post in Hrun by done.
    injection Hrun as <- <-. split.
    + apply employee_create_view_post_taken; [done|].
      unfold has_record. cbn [employee_table]. rewrite Hu.
      apply Exists_app. right. by left.
    + cbn [employee_table]. rewrite filter_app, filter_not_Exists by done.
      by rewrite filter_cons_True.
Qed.

Lemma employee_create_view_one_record_witness :
  employee_create_view Examples.post_nothing
    (employee_create_view Examples.post_names Examples.db_fresh).2
  = (inl IntegrityError,
     (employee_create_view Examples.post_names Examples.db_fresh).2).
Proof.
  eapply (employee_create_view_one_record Examples.post_names
            Examples.post_nothing Examples.db_fresh eq_refl eq_refl eq_refl).
  apply employee_create_view_post; [reflexivity|by_evaluation].
Defined.

(** ** Looking a record up by primary key and owner *)

Lemma filter_pk_owner (table : list Employee.t) e :
  NoDup (Employee.id <$> table) → e ∈ table →
  filter (λ e', Employee.id e' = Employee.id e
                ∧ Employee.user e' = Employee.user e) table = [e].
Proof.
  induction table as [|x table IH]; [by intros _ ?%elem_of_nil|].
  rewrite fmap_cons. intros [Hx Hnd]%NoDup_cons [->|Hin]%elem_of_cons.
  - rewrite filter_cons_True by done. f_equal.
    apply filter_not_Exists. rewrite Exists_exists.
    intros (y & Hy & Hid & _). apply Hx. rewrite <-Hid.
    by apply list_elem_of_fmap_2.
  - rewrite filter_cons_False; [by apply IH|].
    intros [Hid _]. apply Hx. rewrite Hid. by apply list_elem_of_fmap_2.
Qed.

Lemma EmployeeObjects_get_found pk user db e :
  int64 pk →
  employee_pk_unique db → e ∈ employee_table db →
  Employee.id e = pk → Employee.user e = user →
  EmployeeObjects.get pk user db = (inr e, db).
Proof.
  intros Hpk Hnd Hin Hid <-. unfold EmployeeObjects.get.
  rewrite decide_True by done. subst pk.
  erewrite bind_inr by reflexivity. by rewrite filter_pk_owner.
Qed.

Lemma EmployeeObjects_get_missing pk user db :
  int64 pk →
  (∀ e, e ∈ employee_table db → Employee.id e = pk → Employee.user e ≠ user) →
  EmployeeObjects.get pk user db = (inl DoesNotExist, db).
Proof.
  intros Hpk Hmiss. unfold EmployeeObjects.get.
  rewrite decide_True by done.
  erewrite bind_inr by reflexivity.
  rewrite filter_not_Exists; [done|].
  rewrite Exists_exists. intros (e & He & Hid & Hu). by eapply Hmiss.
Qed.

Lemma EmployeeObjects_get_overflow pk user db :
  ¬ int64 pk → EmployeeObjects.get pk user db = (inl OverflowError, db).
Proof. intros Hpk. unfold EmployeeObjects.get. by rewrite decide_False. Qed.

(** ** Editing a record *)

Lemma employee_edit_view_missing request pk db :
  int64 pk →
  (∀ e, e ∈ employee_table db → Employee.id e = pk →
        Employee.user e ≠ Request.user request) →
  employee_edit_view request pk db = (inl DoesNotExist, db).
Proof.
  intros Hpk Hmiss. unfold employee_edit_view.
  erewrite bind_inl; [done|]. by apply EmployeeObjects_get_missing.
Qed.

Lemma employee_edit_view_post request pk db e :
  int64 pk →
  employee_pk_unique db → e ∈ employee_table db →
  Employee.id e = pk → Employee.user e = Request.user request →
  Request.method request = "POST" →
  employee_edit_view request pk db
  = (inr (redirect "employee_list"),
     mkDB (formfield_table db) (formfield_seq db)
          (saved (Employee.set_fields
                    (fields_loop (Request.POST request)
                       (own_fields db (Request.user request))) e)
                 (employee_table db))
          (employee_seq db)).
Proof.
  intros Hpk Hnd Hin Hid Hu Hm. unfold employee_edit_view.
  erewrite bind_inr by by apply EmployeeObjects_get_found.
  rewrite decide_True by done.
  erewrite bind_inr by apply filter_created_by_run.
  reflexivity.
Qed.

Lemma saved_lookup employee table e :
  e ∈ table →
  (if decide (Employee.id e = Employee.id employee) then employee else e)
  ∈ saved employee table.
Proof.
  intros Hin. unfold saved. apply list_elem_of_fmap. by exists e.
Qed.



(** The look-up of the API views for records. *)
Lemma employee_get_object_run request pk db :
  int64 pk →
  EmployeeRetrieveUpdateDestroyView.get_object request pk db
  = (inr (head (filter (λ e, Employee.id e = pk)
                  (filter (λ e, Employee.user e = Request.user request)
                          (employee_table db)))), db).
Proof.
  intros Hpk. unfold EmployeeRetrieveUpdateDestroyView.get_object.
  erewrite bind_inr by reflexivity. by rewrite decide_True.
Qed.

Lemma employee_get_object_overflow request pk db :
  ¬ int64 pk →
  EmployeeRetrieveUpdateDestroyView.get_object request pk db
  = (inl OverflowError, db).
Proof.
  intros Hpk. unfold EmployeeRetrieveUpdateDestroyView.get_object.
  erewrite bind_inr by reflexivity. by rewrite decide_False.
Qed.


Lemma employee_get_object_missing request pk db :
  int64 pk →
  (∀ e, e ∈ employee_table db → Employee.id e = pk →
        Employee.user e ≠ Request.user request) →
  EmployeeRetrieveUpdateDestroyView.get_object request pk db = (inr None, db).
Proof.
  intros Hpk Hmiss. rewrite employee_get_object_run by done.
  rewrite list_filter_filter, filter_not_Exists; [done|].
  rewrite Exists_exists. intros (e & He & Hid & Hu). by eapply Hmiss.
Qed.





(** ** Two fields of one label *)

Lemma last_filter_lookup {A} (P : A → Prop) `{∀ x, Decision (P x)}
    (l : list A) (h : A) :
  last (filter P l) = Some h →
  ∃ k, l !! k = Some h ∧ P h
       ∧ ∀ k' x, (k < k')%nat → l !! k' = Some x → ¬ P x.
Proof.
  induction l as [|x l IH] using rev_ind; [done|].
  rewrite filter_app, filter_cons, filter_nil.
  destruct (decide (P x)) as [HP|HP].
  - rewrite last_snoc. intros [= ->]. exists (length l). split_and!.
    + by rewrite lookup_app_r, Nat.sub_diag by lia.
    + done.
    + intros k' y Hlt Hy. apply lookup_lt_Some in Hy.
      rewrite length_app in Hy. simpl in Hy. lia.
  - rewrite app_nil_r. intros (k & Hk & HPh & Hlater)%IH.
    exists k. split_and!; [|done|].
    + by apply lookup_app_l_Some.
    + intros k' y Hlt Hy. apply lookup_app_Some in Hy as [Hy|[Hlen Hy]].
      * by eapply Hlater.
      * apply list_lookup_singleton_Some in Hy as [_ <-]. done.
Qed.

(** C10: when two of the user's form fields, at positions [i < j] of the
    iteration, carry the same label, the dictionary that
    [employee_create_view] and [employee_edit_view] store has one entry per
    key, and the only entry under that label is the one of the field [h]
    iterated last among the fields of that label, at a position [k ≥ j]:
    what was submitted for the fields before it is not stored.  The
    dictionary has fewer entries than the user has fields. *)
Theorem same_label_last_wins (request : Request.t) (db : DB) (i j : nat)
    (f g : FormField.t) :
  let user := Request.user request in
  let POST := Request.POST request in
  let form_fields := own_fields db user in
  let d := fields_loop POST form_fields in
  form_fields !! i = Some f → form_fields !! j = Some g → (i < j)%nat →
  FormField.label f = FormField.label g →
  Request.method request = "POST" →
  (¬ has_record db user →
   ∃ db', employee_create_view request db
          = (inr (redirect "employee_list"), db')
          ∧ Employee.mk (employee_seq db) user d ∈ employee_table db')
  ∧ (∀ e, employee_pk_unique db → e ∈ employee_table db →
          Employee.user e = user → int64 (Employee.id e) →
     ∃ db', employee_edit_view request (Employee.id e) db
            = (inr (redirect "employee_list"), db')
            ∧ Employee.mk (Employee.id e) user d ∈ employee_table db')
  ∧ NoDup (Py.keys d)
  ∧ (∃ k h, (j ≤ k)%nat ∧ form_fields !! k = Some h
            ∧ FormField.label h = FormField.label f
            ∧ (∀ k' x, (k < k')%nat → form_fields !! k' = Some x →
                       FormField.label x ≠ FormField.label f)
            ∧ filter (λ kv, kv.1 = FormField.label f) d
              = [(FormField.label f,
                  Entry.mk (QueryDict.get POST
                              ("field_" +:+ Py.str (FormField.id h)))
                           (FormField.field_type h))])
  ∧ (length d < length form_fields)%nat.
Proof.
  intros user POST form_fields d Hi Hj Hlt Hlabel Hm. split_and!.
  - intros Hfree. eexists. split; [by apply employee_create_view_post|].
    cbn [employee_table]. apply elem_of_app. right. by left.
  - intros e Hnd Hin Hu Hpk. eexists. split.
    + by apply (employee_edit_view_post request (Employee.id e) db e).
    + cbn [employee_table].
      pose proof (saved_lookup (Employee.set_fields d e) _ e Hin) as Hsaved.
      rewrite decide_True in Hsaved by done.
      replace (Employee.mk (Employee.id e) user d)
        with (Employee.set_fields d e)
        by (unfold Employee.set_fields; by rewrite Hu).
      exact Hsaved.
  - apply fields_loop_NoDup.
  - destruct (last_labelled_Some (FormField.label f) form_fields f)
      as (h & Hlast & _ & _);
      [apply list_elem_of_lookup; by exists i|done|].
    pose proof Hlast as Hh. unfold last_labelled in Hh.
    apply last_filter_lookup in Hh as (k & Hk & Hkl & Hlater).
    exists k, h. split_and!; try done.
    + destruct (decide (j ≤ k)%nat) as [|Hn]; [done|].
      destruct (Hlater j g); [lia|done|congruence].
    + apply get_Some_filter; [apply fields_loop_NoDup|].
      subst d. by rewrite fields_loop_get, Hlast.
  - apply fields_loop_length_lt. rewrite NoDup_alt. intros Hnd.
    assert (i = j); [|lia].
    apply (Hnd i j (FormField.label f)); rewrite list_lookup_fmap.
    + by rewrite Hi.
    + by rewrite Hj, Hlabel.
Qed.

Lemma same_label_last_wins_witness :
  filter (λ kv, kv.1 = "Name")
         (fields_loop (Request.POST Examples.post_names)
            (own_fields Examples.db_two_names 7))
  = [("Name", Entry.mk (Some "42") "number")].
Proof.
  destruct (same_label_last_wins Examples.post_names Examples.db_two_names
              0 1 Examples.first_name Examples.second_name
              eq_refl eq_refl ltac:(lia) eq_refl eq_refl)
    as (_ & _ & _ & (k & h & Hjk & Hk & Hl & Hlater & Hentry) & _).
  assert (k = 1%nat) as ->.
  { destruct (decide (k < 3)%nat) as [Hlt|Hge].
    - destruct k as [|[|[|k]]]; [lia|done| |lia].
      by injection Hk as <-.
    - apply lookup_lt_Some in Hk. vm_compute in Hk. lia. }
  injection Hk as <-. exact Hentry.
Defined.

(** ** Reordering *)

(** One assignment: the parameters fit and the index is not negative. *)
Lemma update_order_run pk user idx db :
  int64 pk → 0 ≤ idx < 2 ^ 63 →
  FormFieldObjects.update_order pk user idx db
  = (inr (),
     mkDB (assign_order user pk idx (formfield_table db))
          (formfield_seq db) (employee_table db) (employee_seq db)).
Proof.
  intros Hpk Hidx. unfold FormFieldObjects.update_order.
  rewrite decide_True by (unfold int64; split; [done|lia]).
  erewrite bind_inr by reflexivity.
  rewrite decide_False by (intros [? _]; lia). reflexivity.
Qed.



Lemma reorder_loop_run user (order : list string) (ids : list Z) k db :
  Forall2 (λ s pk, Py.int s = Some pk) order ids →
  Forall int64 ids → 0 ≤ k → k + Z.of_nat (length ids) ≤ 2 ^ 63 →
  for_each (Py.enumerate_from k order) (λ '(idx, field_id),
      match Py.int field_id with
      | Some pk => FormFieldObjects.update_order pk user idx
      | None => raise ValueError
      end) db
  = (inr (),
     mkDB (assign_all user (formfield_table db) (Py.enumerate_from k ids))
          (formfield_seq db) (employee_table db) (employee_seq db)).
Proof.
  intros Hids. revert k db.
  induction Hids as [|s pk order ids Hs _ IH]; intros k db Hrange Hk Hlen.
  - by destruct db.
  - apply Forall_cons in Hrange as [Hpk Hrange].
    cbn [length] in Hlen.
    cbn [Py.enumerate_from for_each]. rewrite Hs.
    erewrite bind_inr by (apply update_order_run; [done|lia]).
    rewrite IH by (done || lia). reflexivity.
Qed.

Lemma assign_all_rows user steps table :
  assign_all user table steps = (λ f, assign_row user f steps) <$> table.
Proof.
  unfold assign_all, assign_row.
  revert table. induction steps as [|[idx pk] steps IH]; intros table.
  - simpl. by rewrite list_fmap_id.
  - cbn [foldl]. rewrite IH. unfold assign_order.
    by rewrite <-list_fmap_compose.
Qed.

Lemma assign_row_cons user f idx pk steps :
  assign_row user f ((idx, pk) :: steps)
  = assign_row user
      (if decide (FormField.id f = pk ∧ FormField.created_by f = user)
       then FormField.set_order idx f else f) steps.
Proof. reflexivity. Qed.

Lemma assign_row_frame user f steps :
  ∃ o, assign_row user f steps = FormField.set_order o f.
Proof.
  revert f. induction steps as [|[idx pk] steps IH]; intros f.
  - exists (FormField.order f). by destruct f.
  - rewrite assign_row_cons. case_decide; [|apply IH].
    destruct (IH (FormField.set_order idx f)) as [o ->]. by exists o.
Qed.






(** ** Searching *)





(** ** Defining a field *)

Lemma form_design_view_post request db label field_type :
  Request.method request = "POST" →
  QueryDict.get (Request.POST request) "label" = Some label →
  QueryDict.get (Request.POST request) "field_type" = Some field_type →
  form_design_view request db
  = (inr (redirect "form_design"),
     mkDB (formfield_table db
           ++ [FormField.mk (formfield_seq db) label field_type
                 (bool_decide (QueryDict.get (Request.POST request) "required"
                               = Some "on"))
                 0 (Request.user request)])
          (formfield_seq db + 1) (employee_table db) (employee_seq db)).
Proof.
  intros Hm Hl Ht. unfold form_design_view.
  rewrite decide_True by done. rewrite Hl, Ht. reflexivity.
Qed.

(** The insert of a form field whose [order] the column takes. *)
Lemma FormFieldObjects_create_run l t required order user db :
  0 ≤ order < 2 ^ 63 →
  FormFieldObjects.create (Some l) (Some t) required order user db
  = (inr (FormField.mk (formfield_seq db) l t required order user),
     mkDB (formfield_table db
           ++ [FormField.mk (formfield_seq db) l t required order user])
          (formfield_seq db + 1) (employee_table db) (employee_seq db)).
Proof.
  intros Horder. unfold FormFieldObjects.create.
  rewrite decide_True by (unfold int64; lia).
  rewrite decide_True by lia. reflexivity.
Qed.

Lemma FormFieldObjects_create_negative l t required order user db :
  - 2 ^ 63 ≤ order < 0 →
  FormFieldObjects.create (Some l) (Some t) required order user db
  = (inl IntegrityError, db).
Proof.
  intros Horder. unfold FormFieldObjects.create.
  rewrite decide_True by (unfold int64; lia).
  by rewrite decide_False by lia.
Qed.

Lemma FormFieldObjects_create_overflow label field_type required order user db :
  ¬ int64 order →
  FormFieldObjects.create label field_type required order user db
  = (inl OverflowError, db).
Proof. intros Horder. unfold FormFieldObjects.create. by rewrite decide_False. Qed.

(** A payload without errors carries a label and a type. *)
Lemma FormFieldSerializer_valid data :
  FormFieldSerializer_errors data = [] →
  ∃ l t, FormFieldData.label data = Some l
         ∧ FormFieldData.field_type data = Some t
         ∧ Py.strip l ≠ "" ∧ t ∈ FIELD_TYPES.*1.
Proof.
  unfold FormFieldSerializer_errors. intros [Hl Ht]%app_nil.
  destruct (FormFieldData.label data) as [l|]; [|done].
  destruct (FormFieldData.field_type data) as [t|]; [|done].
  exists l, t. split_and!; [done|done| |].
  - by destruct (decide (Py.strip l = "")).
  - by destruct (decide (t ∈ FIELD_TYPES.*1)).
Qed.

Lemma foldr_max_le a l : a ≤ foldr Z.max a l.
Proof. induction l as [|x l IH]; simpl; lia. Qed.

(** Where no stored order is negative, the next slot of a user who has
    form fields is positive. *)
Lemma next_slot_pos db user :
  orders_nonneg db → own_fields db user ≠ [] → 0 < next_slot db user.
Proof.
  intros Hnn Hne. unfold next_slot.
  destruct (own_fields db user) as [|f fs] eqn:Hown; [done|].
  assert (f ∈ formfield_table db) as Hf.
  { apply (elem_of_own_fields db user f). rewrite Hown. left. }
  unfold orders_nonneg in Hnn. rewrite Forall_forall in Hnn.
  pose proof (Hnn f Hf) as Hf0. simpl in Hf0.
  pose proof (foldr_max_le (FormField.order f) (FormField.order <$> fs)).
  lia.
Qed.

(** C4, as stated, fails on the code: user 7 has fields of order 0 and 1,
    and the new field gets order 0, not 2. *)
Lemma create_takes_next_slot_fails :
  ¬ create_takes_next_slot
      (Request.mk 7 "POST" ∅
         (Examples.querydict [("label", ["City"]); ("field_type", ["text"])])
         false)
      Examples.db_fresh.
Proof.
  intros Hslot.
  edestruct Hslot as (f & Htable & Horder).
  { by apply (form_design_view_post _ _ "City" "text"). }
  cbn [formfield_table] in Htable. apply app_inv_head in Htable.
  injection Htable as <-. vm_compute in Horder. discriminate.
Qed.

(** C4, amended: [form_design_view] appends a form field of the user with
    the submitted label and type, the next primary key, and the order 0,
    the default of the column, whatever the orders of the fields the user
    already has; no stored order being negative, 0 is the next slot
    exactly when the user has no form field.  Through the API the order
    is the one given in the payload, and 0 when the payload gives none,
    provided it is not negative and fits the column; a negative order
    passes the serializer and fails in the insert, and nothing is
    stored. *)
Theorem form_design_view_default_order (request : Request.t) (db : DB)
    (label field_type : string) :
  Request.method request = "POST" →
  QueryDict.get (Request.POST request) "label" = Some label →
  QueryDict.get (Request.POST request) "field_type" = Some field_type →
  (∃ f, form_design_view request db
        = (inr (redirect "form_design"),
           mkDB (formfield_table db ++ [f]) (formfield_seq db + 1)
                (employee_table db) (employee_seq db))
        ∧ FormField.order f = 0
        ∧ FormField.id f = formfield_seq db
        ∧ FormField.label f = label
        ∧ FormField.field_type f = field_type
        ∧ FormField.created_by f = Request.user request
        ∧ (orders_nonneg db →
           (FormField.order f = next_slot db (Request.user request)
            ↔ own_fields db (Request.user request) = [])))
  ∧ (∀ data, FormFieldSerializer_errors data = [] →
       let order := default 0 (FormFieldData.order data) in
       (0 ≤ order < 2 ^ 63 →
        ∃ f, FormFieldListCreateView.create request data db
             = (inr (Response (formfield_data f) 201),
                mkDB (formfield_table db ++ [f]) (formfield_seq db + 1)
                     (employee_table db) (employee_seq db))
             ∧ FormField.order f = order
             ∧ FormField.created_by f = Request.user request)
       ∧ (- 2 ^ 63 ≤ order < 0 →
          FormFieldListCreateView.create request data db
          = (inl IntegrityError, db))
       ∧ (beyond_int64 order →
          FormFieldListCreateView.create request data db
          = (inl OverflowError, db))).
Proof.
  intros Hm Hl Ht. split.
  - eexists. split; [by apply form_design_view_post|].
    split_and!; try done.
    intros Hnn. cbn [FormField.order]. split.
    + intros Hslot.
      destruct (decide (own_fields db (Request.user request) = []))
        as [|Hne]; [done|].
      pose proof (next_slot_pos db (Request.user request) Hnn Hne). lia.
    + intros Hnone. unfold next_slot. by rewrite Hnone.
  - intros data Hvalid order.
    unfold FormFieldListCreateView.create,
      FormFieldListCreateView.perform_create.
    rewrite Hvalid.
    apply FormFieldSerializer_valid in Hvalid as (l & t & -> & -> & _ & _).
    fold order. cbn [fmap option_fmap option_map]. split_and!.
    + intros Horder. eexists.
      erewrite bind_inr by by apply FormFieldObjects_create_run.
      split; [reflexivity|done].
    + intros Horder.
      by erewrite bind_inl by by apply FormFieldObjects_create_negative.
    + intros [Horder _].
      by erewrite bind_inl by by apply FormFieldObjects_create_overflow.
Qed.

Lemma form_design_view_default_order_witness :
  (∃ f, form_design_view
          (Request.mk 7 "POST" ∅
             (Examples.querydict [("label", ["City"]); ("field_type", ["text"])])
             false)
          Examples.db_fresh
        = (inr (redirect "form_design"),
           mkDB (formfield_table Examples.db_fresh ++ [f]) 6 [] 1)
        ∧ FormField.order f = 0
        ∧ FormField.order f ≠ next_slot Examples.db_fresh 7)
  ∧ FormFieldListCreateView.create
      (Request.mk 7 "POST" ∅
         (Examples.querydict [("label", ["City"]); ("field_type", ["text"])])
         false)
      (FormFieldData.mk (Some "City") (Some "text") None (Some (-1)))
      Examples.db_fresh
    = (inl IntegrityError, Examples.db_fresh).
Proof.
  destruct (form_design_view_default_order
              (Request.mk 7 "POST" ∅
                 (Examples.querydict
                    [("label", ["City"]); ("field_type", ["text"])])
                 false)
              Examples.db_fresh "City" "text" eq_refl eq_refl eq_refl)
    as [(f & Hrun & Horder & _ & _ & _ & _ & Hslot) Hapi].
  split.
  - exists f. split; [exact Hrun|]. split; [exact Horder|].
    intros Heq. apply (Hslot ltac:(by_evaluation)) in Heq. discriminate Heq.
  - destruct (Hapi (FormFieldData.mk (Some "City") (Some "text") None
                      (Some (-1))) eq_refl) as (_ & Hneg & _).
    apply Hneg. by_evaluation.
Defined.

(** C8: on the failing input.  The type [color] is not among
    [FIELD_TYPES]; the API rejects it with status 400 and creates nothing,
    while [form_design_view] creates the field. *)
Lemma form_design_view_skips_choices :
  ("color" ∉ FIELD_TYPES.*1)
  ∧ FormFieldListCreateView.create (Request.mk 7 "POST" ∅ ∅ false)
      (FormFieldData.mk (Some "Mood") (Some "color") None None)
      Examples.db_fresh
    = (inr (Response (errors_data [("field_type", invalid_choice "color")]) 400),
       Examples.db_fresh)
  ∧ form_design_view
      (Request.mk 7 "POST" ∅
         (Examples.querydict [("label", ["Mood"]); ("field_type", ["color"])])
         false)
      Examples.db_fresh
    = (inr (redirect "form_design"),
       mkDB (formfield_table Examples.db_fresh
             ++ [FormField.mk 5 "Mood" "color" false 0 7])
            6 [] 1).
Proof. split_and!; [by_evaluation|reflexivity|reflexivity]. Qed.

(** C6: on the failing input.  The record [smith] belongs to user 7.
    For user 8 the HTML list is empty and the look-ups by primary key do
    not find the record, but the API list returns it. *)
Lemma EmployeeListCreateView_list_leaks :
  let request := Request.mk 8 "GET" ∅ ∅ false in
  Employee.user Examples.smith ≠ Request.user request
  ∧ employee_list_view request Examples.db_smith
    = (inr (render "employee_list.html"
              (employee_list_ctx [] [Examples.foreign] "")),
       Examples.db_smith)
  ∧ employee_edit_view request 1 Examples.db_smith
    = (inl DoesNotExist, Examples.db_smith)
  ∧ employee_delete_view request 1 Examples.db_smith
    = (inl DoesNotExist, Examples.db_smith)
  ∧ EmployeeRetrieveUpdateDestroyView.retrieve request 1 Examples.db_smith
    = (inr not_found, Examples.db_smith)
  ∧ EmployeeRetrieveUpdateDestroyView.destroy request 1 Examples.db_smith
    = (inr not_found, Examples.db_smith)
  ∧ EmployeeListCreateView.list request Examples.db_smith
    = (inr (Response (employee_list_data [Examples.smith]) 200),
       Examples.db_smith).
Proof. split_and!; [by_evaluation|reflexivity..]. Qed.

(** ** Deleting a field *)

Lemma formfield_get_object_run request pk db :
  int64 pk →
  FormFieldRetrieveUpdateDestroyView.get_object request pk db
  = (inr (head (filter (λ f, FormField.id f = pk)
                       (own_fields db (Request.user request)))), db).
Proof.
  intros Hpk. unfold FormFieldRetrieveUpdateDestroyView.get_object.
  erewrite bind_inr by reflexivity. by rewrite decide_True.
Qed.

Lemma formfield_get_object_overflow request pk db :
  ¬ int64 pk →
  FormFieldRetrieveUpdateDestroyView.get_object request pk db
  = (inl OverflowError, db).
Proof.
  intros Hpk. unfold FormFieldRetrieveUpdateDestroyView.get_object.
  erewrite bind_inr by reflexivity. by rewrite decide_False.
Qed.

(** C9: deleting a form field through the API leaves the table of records
    as it is, so every record keeps its [fields].  For a primary key the
    key column can hold, the response is 204 and the rows with the
    primary key are gone when the user has a field with that key;
    otherwise the response is 404 and the database is as before.  A
    primary key out of the range of the column makes the look-up raise
    [OverflowError], and the database is as before. *)
Theorem destroy_keeps_records (request : Request.t) (pk : Z) (db : DB) :
  let result := FormFieldRetrieveUpdateDestroyView.destroy request pk db in
  employee_table result.2 = employee_table db
  ∧ (int64 pk →
     (∃ f, f ∈ formfield_table db ∧ FormField.id f = pk
           ∧ FormField.created_by f = Request.user request) →
     result
     = (inr (Response no_data 204),
        mkDB (filter (λ f, FormField.id f ≠ pk) (formfield_table db))
             (formfield_seq db) (employee_table db) (employee_seq db)))
  ∧ (int64 pk →
     (∀ f, f ∈ formfield_table db → FormField.id f = pk →
           FormField.created_by f ≠ Request.user request) →
     result = (inr not_found, db))
  ∧ (beyond_int64 pk → result = (inl OverflowError, db)).
Proof.
  intros result. subst result.
  unfold FormFieldRetrieveUpdateDestroyView.destroy.
  destruct (decide (int64 pk)) as [Hpk|Hpk].
  2: { erewrite bind_inl by by apply formfield_get_object_overflow.
       split_and!; done. }
  erewrite bind_inr by by apply formfield_get_object_run.
  destruct (head (filter (λ f, FormField.id f = pk)
                    (own_fields db (Request.user request)))) as [f|] eqn:Hhead.
  - assert (f ∈ filter (λ f, FormField.id f = pk)
                  (own_fields db (Request.user request))) as Hf.
    { destruct (filter _ (own_fields _ _)); [done|].
      injection Hhead as ->. left. }
    apply list_elem_of_filter in Hf as [Hid Hf].
    apply elem_of_own_fields in Hf as [Hf Hu].
    split_and!.
    + reflexivity.
    + intros _ _. unfold FormFieldObjects.delete. rewrite Hid. reflexivity.
    + intros _ Hmiss. by destruct (Hmiss f).
    + by intros [? _].
  - split_and!; [done| |done|by intros [? _]].
    intros _ (f & Hf & Hid & Hu).
    apply head_None in Hhead.
    destruct (filter_nil_not_elem_of (λ f, FormField.id f = pk) _ f Hhead Hid).
    by apply elem_of_own_fields.
Qed.

(** * Further properties of the views *)

(** ** Deleting a record *)

Lemma filter_other_pk (table : list Employee.t) e :
  NoDup (Employee.id <$> table) → e ∈ table →
  ∀ e', e' ∈ filter (λ x, Employee.id x ≠ Employee.id e) table
        ↔ e' ∈ table ∧ e' ≠ e.
Proof.
  intros Hnd He e'. rewrite list_elem_of_filter. split.
  - intros [Hid Hin]. split; [done|]. by intros ->.
  - intros [Hin Hne]. split; [|done]. intros Hid. apply Hne.
    apply list_elem_of_lookup in Hin as [i Hi], He as [j Hj].
    rewrite NoDup_alt in Hnd.
    assert (i = j) as ->; [|congruence].
    apply (Hnd i j (Employee.id e)); rewrite list_lookup_fmap.
    + rewrite Hi. simpl. by rewrite Hid.
    + by rewrite Hj.
Qed.

Lemma employee_delete_view_missing request pk db :
  int64 pk →
  (∀ e, e ∈ employee_table db → Employee.id e = pk →
        Employee.user e ≠ Request.user request) →
  employee_delete_view request pk db = (inl DoesNotExist, db).
Proof.
  intros Hpk Hmiss. unfold employee_delete_view.
  erewrite bind_inl; [done|]. by apply EmployeeObjects_get_missing.
Qed.

Lemma employee_delete_view_overflow request pk db :
  ¬ int64 pk →
  employee_delete_view request pk db = (inl OverflowError, db).
Proof.
  intros Hpk. unfold employee_delete_view.
  erewrite bind_inl; [done|]. by apply EmployeeObjects_get_overflow.
Qed.


Lemma employee_delete_view_found request pk db e :
  int64 pk →
  employee_pk_unique db → e ∈ employee_table db →
  Employee.id e = pk → Employee.user e = Request.user request →
  employee_delete_view request pk db
  = (inr (redirect "employee_list"),
     mkDB (formfield_table db) (formfield_seq db)
          (filter (λ x, Employee.id x ≠ pk) (employee_table db))
          (employee_seq db)).
Proof.
  intros Hpk Hnd Hin Hid Hu. unfold employee_delete_view.
  erewrite bind_inr by by apply EmployeeObjects_get_found.
  unfold EmployeeObjects.delete. rewrite Hid. reflexivity.
Qed.

(** For a primary key the key column can hold, [employee_delete_view]
    raises [DoesNotExist] and changes nothing when no record has the
    primary key and belongs to the user; otherwise it removes that record
    and no other, leaves the form fields as they are, and redirects to
    the list.  A primary key out of the range of the column makes the
    look-up raise [OverflowError], and nothing changes. *)
Theorem employee_delete_view_removes (request : Request.t) (pk : Z) (db : DB) :
  employee_pk_unique db →
  (int64 pk →
   (∀ e, e ∈ employee_table db → Employee.id e = pk →
         Employee.user e ≠ Request.user request) →
   employee_delete_view request pk db = (inl DoesNotExist, db))
  ∧ (int64 pk →
     ∀ e, e ∈ employee_table db → Employee.id e = pk →
          Employee.user e = Request.user request →
      ∃ table',
        employee_delete_view request pk db
        = (inr (redirect "employee_list"),
           mkDB (formfield_table db) (formfield_seq db) table'
                (employee_seq db))
        ∧ ∀ e', e' ∈ table' ↔ e' ∈ employee_table db ∧ e' ≠ e)
  ∧ (beyond_int64 pk →
     employee_delete_view request pk db = (inl OverflowError, db)).
Proof.
  intros Hnd. split_and!.
  - apply employee_delete_view_missing.
  - intros Hpk e Hin Hid Hu. eexists. split.
    + by apply (employee_delete_view_found request pk db e).
    + rewrite <-Hid. by apply filter_other_pk.
  - intros [Hpk _]. by apply employee_delete_view_overflow.
Qed.

Lemma employee_delete_view_removes_witness :
  employee_delete_view Examples.post_nothing 1 Examples.db_smith
  = (inr (redirect "employee_list"),
     mkDB [Examples.first_name; Examples.foreign] 5 [] 2).
Proof.
  destruct (employee_delete_view_removes Examples.post_nothing 1
              Examples.db_smith ltac:(by_evaluation)) as (_ & Hfound & _).
  destruct (Hfound ltac:(by_evaluation) Examples.smith ltac:(by_evaluation)
              eq_refl eq_refl)
    as (table' & Hrun & Hrows).
  destruct table' as [|e' table'].
  - exact Hrun.
  - destruct (proj1 (Hrows e') ltac:(left)) as [_ Hne].
    exfalso. apply Hne. injection Hrun as Hrun.
    vm_compute in Hrun. discriminate Hrun.
Defined.

(** ** The outcomes of the look-up and of the views built on it *)

Lemma EmployeeObjects_get_cases pk user db :
  (∃ err, EmployeeObjects.get pk user db = (inl err, db))
  ∨ ∃ e, e ∈ employee_table db ∧ Employee.id e = pk ∧ Employee.user e = user
         ∧ int64 pk
         ∧ EmployeeObjects.get pk user db = (inr e, db).
Proof.
  unfold EmployeeObjects.get. case_decide as Hpk; [|left; by eexists].
  erewrite bind_inr by reflexivity.
  destruct (filter _ (employee_table db)) as [|e [|e' l]] eqn:Hf.
  - left; by eexists.
  - right. exists e.
    assert (e ∈ filter (λ e, Employee.id e = pk ∧ Employee.user e = user)
                  (employee_table db)) as Hin by (rewrite Hf; left).
    apply list_elem_of_filter in Hin as [[Hid Hu] Hin]. done.
  - left; by eexists.
Qed.

(** The database after [employee_edit_view]. *)
Lemma employee_edit_view_cases request pk db :
  (employee_edit_view request pk db).2 = db
  ∨ ∃ e d, e ∈ employee_table db ∧ Employee.id e = pk
           ∧ Employee.user e = Request.user request
           ∧ (employee_edit_view request pk db).2
             = mkDB (formfield_table db) (formfield_seq db)
                    (saved (Employee.set_fields d e) (employee_table db))
                    (employee_seq db).
Proof.
  unfold employee_edit_view.
  destruct (EmployeeObjects_get_cases pk (Request.user request) db)
    as [[err Hget]|(e & Hin & Hid & Hu & _ & Hget)].
  - left. by erewrite bind_inl.
  - erewrite bind_inr by done. case_decide; [|by left].
    right. by eexists e, _.
Qed.

(** The database after [employee_delete_view]. *)
Lemma employee_delete_view_cases request pk db :
  (employee_delete_view request pk db).2 = db
  ∨ ∃ e, e ∈ employee_table db ∧ Employee.id e = pk
         ∧ Employee.user e = Request.user request
         ∧ employee_delete_view request pk db
           = (inr (redirect "employee_list"),
              mkDB (formfield_table db) (formfield_seq db)
                   (filter (λ x, Employee.id x ≠ pk) (employee_table db))
                   (employee_seq db)).
Proof.
  unfold employee_delete_view.
  destruct (EmployeeObjects_get_cases pk (Request.user request) db)
    as [[err Hget]|(e & Hin & Hid & Hu & _ & Hget)].
  - left. by erewrite bind_inl.
  - right. exists e. split_and!; try done.
    erewrite bind_inr by done. unfold EmployeeObjects.delete.
    rewrite Hid. reflexivity.
Qed.

(** The database after [employee_create_view]. *)
Lemma employee_create_view_cases request db :
  (employee_create_view request db).2 = db
  ∨ (¬ has_record db (Request.user request)
     ∧ (employee_create_view request db).2
       = mkDB (formfield_table db) (formfield_seq db)
              (employee_table db ++ [created_record request db])
              (employee_seq db + 1)).
Proof.
  destruct (decide (Request.method request = "POST")) as [Hm|Hm].
  - destruct (decide (has_record db (Request.user request))) as [Ht|Hf].
    + left. by rewrite employee_create_view_post_taken.
    + right. split; [done|]. by rewrite employee_create_view_post.
  - left. unfold employee_create_view. by rewrite decide_False.
Qed.

(** One assignment writes the [order] column only, if it writes. *)
Lemma update_order_cases pk user idx db :
  (∃ err, FormFieldObjects.update_order pk user idx db = (inl err, db))
  ∨ ((idx < 0 → assign_order user pk idx (formfield_table db)
                = formfield_table db)
     ∧ FormFieldObjects.update_order pk user idx db
       = (inr (),
          mkDB (assign_order user pk idx (formfield_table db))
               (formfield_seq db) (employee_table db) (employee_seq db))).
Proof.
  unfold FormFieldObjects.update_order.
  case_decide as Hrange; [|left; by eexists].
  erewrite bind_inr by reflexivity.
  case_decide as Hcheck; [left; by eexists|]. right. split; [|done].
  intros Hneg. unfold assign_order.
  rewrite <-(list_fmap_id (formfield_table db)) at 2.
  apply list_fmap_ext. intros i f Hf. simpl.
  case_decide as Hrow; [|done]. destruct Hcheck. split; [done|].
  apply Exists_exists. exists f. split; [|done].
  by eapply list_elem_of_lookup_2.
Qed.

(** The loop of [update_field_order] writes the [order] column only,
    also when it stops at an entry that it cannot assign. *)
Lemma reorder_loop_cases user (order : list (Z * string)) db :
  ∃ steps r,
    for_each order (λ '(idx, field_id),
      match Py.int field_id with
      | Some pk => FormFieldObjects.update_order pk user idx
      | None => raise ValueError
      end) db
    = (r, mkDB (assign_all user (formfield_table db) steps)
               (formfield_seq db) (employee_table db) (employee_seq db)).
Proof.
  revert db. induction order as [|[idx s] order IH]; intros db.
  - exists [], (inr ()). by destruct db.
  - cbn [for_each]. destruct (Py.int s) as [pk|].
    + destruct (update_order_cases pk user idx db) as [[err Herr]|[_ Hok]].
      * exists [], (inl err). erewrite bind_inl by done. by destruct db.
      * erewrite bind_inr by done.
        destruct (IH (mkDB (assign_order user pk idx (formfield_table db))
                           (formfield_seq db) (employee_table db)
                           (employee_seq db))) as (steps & r & ->).
        by exists ((idx, pk) :: steps), r.
    + exists [], (inl ValueError). by destruct db.
Qed.

(** The database after [update_field_order]. *)
Lemma update_field_order_cases request db :
  ∃ steps,
    (update_field_order request db).2
    = mkDB (assign_all (Request.user request) (formfield_table db) steps)
           (formfield_seq db) (employee_table db) (employee_seq db).
Proof.
  unfold update_field_order.
  destruct (bool_decide _ && _).
  - destruct (reorder_loop_cases (Request.user request)
                (Py.enumerate (QueryDict.getlist (Request.POST request)
                                 "order[]")) db) as (steps & [e|[]] & Hrun).
    + exists steps. by erewrite bind_inl.
    + exists steps. by erewrite bind_inr.
  - exists []. by destruct db.
Qed.

(** The database after [form_design_view]. *)
Lemma form_design_view_cases request db :
  (form_design_view request db).2 = db
  ∨ ∃ f, FormField.id f = formfield_seq db
         ∧ FormField.created_by f = Request.user request
         ∧ (form_design_view request db).2
           = mkDB (formfield_table db ++ [f]) (formfield_seq db + 1)
                  (employee_table db) (employee_seq db).
Proof.
  unfold form_design_view. case_decide; [|by left].
  destruct (QueryDict.get (Request.POST request) "label") as [l|];
    [|by left].
  destruct (QueryDict.get (Request.POST request) "field_type") as [t|];
    [|by left].
  right. eexists. split_and!; [| |reflexivity]; done.
Qed.

(** The database after the API calls that write. *)
Lemma formfield_api_create_cases request data db :
  (FormFieldListCreateView.create request data db).2 = db
  ∨ ∃ f, FormField.id f = formfield_seq db
         ∧ FormField.created_by f = Request.user request
         ∧ FormField.field_type f ∈ FIELD_TYPES.*1
         ∧ FormFieldListCreateView.create request data db
           = (inr (Response (formfield_data f) 201),
              mkDB (formfield_table db ++ [f]) (formfield_seq db + 1)
                   (employee_table db) (employee_seq db)).
Proof.
  unfold FormFieldListCreateView.create,
    FormFieldListCreateView.perform_create.
  destruct (FormFieldSerializer_errors data) as [|err errs] eqn:Herr;
    [|by left].
  apply FormFieldSerializer_valid in Herr as (l & t & -> & -> & _ & Hty).
  cbn [fmap option_fmap option_map].
  set (order := default 0 (FormFieldData.order data)).
  destruct (decide (int64 order)) as [Hrange|Hrange].
  - destruct (decide (0 ≤ order)) as [Hpos|Hneg].
    + right. eexists.
      erewrite bind_inr
        by (apply FormFieldObjects_create_run; unfold int64 in Hrange; lia).
      split_and!; [| | |reflexivity]; done.
    + left.
      by erewrite bind_inl
        by (apply FormFieldObjects_create_negative;
            unfold int64 in Hrange; lia).
  - left. by erewrite bind_inl by by apply FormFieldObjects_create_overflow.
Qed.

Lemma formfield_api_destroy_cases request pk db :
  (FormFieldRetrieveUpdateDestroyView.destroy request pk db).2 = db
  ∨ FormFieldRetrieveUpdateDestroyView.destroy request pk db
    = (inr (Response no_data 204),
       mkDB (filter (λ f, FormField.id f ≠ pk) (formfield_table db))
            (formfield_seq db) (employee_table db) (employee_seq db)).
Proof.
  unfold FormFieldRetrieveUpdateDestroyView.destroy.
  destruct (decide (int64 pk)) as [Hpk|Hpk].
  2: { left. by erewrite bind_inl by by apply formfield_get_object_overflow. }
  erewrite bind_inr by by apply formfield_get_object_run.
  destruct (head (filter (λ f, FormField.id f = pk)
                    (own_fields db (Request.user request)))) as [f|] eqn:Hhead;
    [|by left].
  right.
  assert (f ∈ filter (λ f, FormField.id f = pk)
                (own_fields db (Request.user request))) as Hf.
  { destruct (filter _ (own_fields _ _)); [done|].
    injection Hhead as ->. left. }
  apply list_elem_of_filter in Hf as [Hid _].
  unfold FormFieldObjects.delete. rewrite Hid. reflexivity.
Qed.

Lemma employee_api_destroy_cases request pk db :
  (EmployeeRetrieveUpdateDestroyView.destroy request pk db).2 = db
  ∨ EmployeeRetrieveUpdateDestroyView.destroy request pk db
    = (inr (Response no_data 204),
       mkDB (formfield_table db) (formfield_seq db)
            (filter (λ e, Employee.id e ≠ pk) (employee_table db))
            (employee_seq db)).
Proof.
  unfold EmployeeRetrieveUpdateDestroyView.destroy.
  destruct (decide (int64 pk)) as [Hpk|Hpk].
  2: { left. by erewrite bind_inl by by apply employee_get_object_overflow. }
  erewrite bind_inr by by apply employee_get_object_run.
  destruct (head (filter (λ e, Employee.id e = pk) _)) as [e|] eqn:Hhead;
    [|by left].
  right.
  assert (e ∈ filter (λ e, Employee.id e = pk)
                (filter (λ e, Employee.user e = Request.user request)
                        (employee_table db))) as He.
  { destruct (filter _ (filter _ _)); [done|].
    injection Hhead as ->. left. }
  apply list_elem_of_filter in He as [Hid _].
  unfold EmployeeObjects.delete. rewrite Hid. reflexivity.
Qed.

Lemma formfield_api_retrieve_frame request pk db :
  (FormFieldRetrieveUpdateDestroyView.retrieve request pk db).2 = db.
Proof.
  unfold FormFieldRetrieveUpdateDestroyView.retrieve.
  destruct (decide (int64 pk)) as [Hpk|Hpk].
  - erewrite bind_inr by by apply formfield_get_object_run.
    by destruct (head _).
  - by erewrite bind_inl by by apply formfield_get_object_overflow.
Qed.

Lemma employee_api_retrieve_frame request pk db :
  (EmployeeRetrieveUpdateDestroyView.retrieve request pk db).2 = db.
Proof.
  unfold EmployeeRetrieveUpdateDestroyView.retrieve.
  destruct (decide (int64 pk)) as [Hpk|Hpk].
  - erewrite bind_inr by by apply employee_get_object_run.
    by destruct (head _).
  - by erewrite bind_inl by by apply employee_get_object_overflow.
Qed.

Lemma employee_api_update_cases request pk fields db :
  (EmployeeRetrieveUpdateDestroyView.partial_update request pk fields db).2 = db
  ∨ ∃ e d, e ∈ employee_table db ∧ Employee.id e = pk
           ∧ Employee.user e = Request.user request
           ∧ (EmployeeRetrieveUpdateDestroyView.partial_update
                request pk fields db).2
             = mkDB (formfield_table db) (formfield_seq db)
                    (saved (Employee.set_fields d e) (employee_table db))
                    (employee_seq db).
Proof.
  unfold EmployeeRetrieveUpdateDestroyView.partial_update.
  destruct (decide (int64 pk)) as [Hpk|Hpk].
  2: { left. by erewrite bind_inl by by apply employee_get_object_overflow. }
  erewrite bind_inr by by apply employee_get_object_run.
  destruct (head (filter (λ e, Employee.id e = pk) _)) as [e|] eqn:Hhead;
    [|by left].
  right.
  assert (e ∈ filter (λ e, Employee.id e = pk)
                (filter (λ e, Employee.user e = Request.user request)
                        (employee_table db))) as He.
  { destruct (filter _ (filter _ _)); [done|].
    injection Hhead as ->. left. }
  apply list_elem_of_filter in He as [Hid [Hu He]%list_elem_of_filter].
  by exists e, (default (Employee.fields e) fields).
Qed.

(** ** What the views leave alone *)

(** The views that define, list, read and reorder form fields never
    write the table of records nor its sequence: the [fields] of every
    record are a snapshot that no change of the schema reaches. *)
Theorem field_views_keep_records (request : Request.t) (db : DB) (pk : Z)
    (data : FormFieldData.t) :
  let same (db' : DB) :=
    employee_table db' = employee_table db
    ∧ employee_seq db' = employee_seq db in
  same (form_design_view request db).2
  ∧ same (update_field_order request db).2
  ∧ same (FormFieldListCreateView.list request db).2
  ∧ same (FormFieldListCreateView.create request data db).2
  ∧ same (FormFieldRetrieveUpdateDestroyView.retrieve request pk db).2.
Proof.
  intros same. subst same. cbn beta.
  rewrite formfield_api_retrieve_frame.
  destruct (form_design_view_cases request db) as [->|(f & _ & _ & ->)];
    destruct (update_field_order_cases request db) as [steps ->];
    destruct (formfield_api_create_cases request data db)
      as [->|(f' & _ & _ & _ & ->)];
    done.
Qed.

(** The views that create, list, edit and delete records never write the
    table of form fields nor its sequence. *)
Theorem record_views_keep_fields (request : Request.t) (db : DB) (pk : Z)
    (fields : option (Py.dict Entry.t)) :
  let same (db' : DB) :=
    formfield_table db' = formfield_table db
    ∧ formfield_seq db' = formfield_seq db in
  same (employee_create_view request db).2
  ∧ same (employee_list_view request db).2
  ∧ same (employee_edit_view request pk db).2
  ∧ same (employee_delete_view request pk db).2
  ∧ same (EmployeeListCreateView.list request db).2
  ∧ same (EmployeeRetrieveUpdateDestroyView.retrieve request pk db).2
  ∧ same (EmployeeRetrieveUpdateDestroyView.destroy request pk db).2
  ∧ same (EmployeeRetrieveUpdateDestroyView.partial_update request pk fields
            db).2.
Proof.
  intros same. subst same. cbn beta.
  rewrite employee_api_retrieve_frame.
  destruct (employee_create_view_cases request db) as [->|[_ ->]];
    destruct (employee_edit_view_cases request pk db)
      as [->|(e & d & _ & _ & _ & ->)];
    destruct (employee_delete_view_cases request pk db)
      as [->|(e' & _ & _ & _ & ->)];
    destruct (employee_api_destroy_cases request pk db) as [->| ->];
    destruct (employee_api_update_cases request pk fields db)
      as [->|(e'' & d'' & _ & _ & _ & ->)];
    done.
Qed.

(** ** The constraints of the schema are kept *)

Lemma NoDup_fmap_filter {A B} (f : A → B) (P : A → Prop)
    `{∀ x, Decision (P x)} (l : list A) :
  NoDup (f <$> l) → NoDup (f <$> filter P l).
Proof.
  induction l as [|x l IH]; [done|].
  rewrite fmap_cons. intros [Hx Hl]%NoDup_cons.
  rewrite filter_cons. case_decide; [|by apply IH].
  rewrite fmap_cons. apply NoDup_cons. split; [|by apply IH].
  intros (y & Hy & Hin)%list_elem_of_fmap. apply Hx.
  apply list_elem_of_filter in Hin as [_ Hin].
  rewrite Hy. by apply list_elem_of_fmap_2.
Qed.

Lemma Forall_filter_keep {A} (Q P : A → Prop) `{∀ x, Decision (P x)}
    (l : list A) :
  Forall Q l → Forall Q (filter P l).
Proof.
  rewrite !Forall_forall. intros HQ x [_ Hx]%list_elem_of_filter. by apply HQ.
Qed.

Lemma assign_all_ids user steps table :
  FormField.id <$> assign_all user table steps = FormField.id <$> table.
Proof.
  rewrite assign_all_rows, <-list_fmap_compose.
  apply list_fmap_ext. intros i f _. simpl.
  by destruct (assign_row_frame user f steps) as [o ->].
Qed.

Lemma saved_ids e d table :
  Employee.id <$> saved (Employee.set_fields d e) table
  = Employee.id <$> table.
Proof.
  unfold saved. rewrite <-list_fmap_compose.
  apply list_fmap_ext. intros i x _. simpl. by case_decide.
Qed.

Lemma saved_users e d table :
  NoDup (Employee.id <$> table) → e ∈ table →
  Employee.user <$> saved (Employee.set_fields d e) table
  = Employee.user <$> table.
Proof.
  intros Hnd He. unfold saved. rewrite <-list_fmap_compose.
  apply list_fmap_ext. intros i x Hx. simpl.
  case_decide as Hid; [|done]. simpl in Hid. simpl.
  apply list_elem_of_lookup in He as [j Hj].
  rewrite NoDup_alt in Hnd.
  assert (i = j) as ->; [|congruence].
  apply (Hnd i j (Employee.id e)); rewrite list_lookup_fmap.
  - rewrite Hx. simpl. by rewrite Hid.
  - by rewrite Hj.
Qed.

Lemma db_wf_append_formfield db f :
  db_wf db → FormField.id f = formfield_seq db →
  db_wf (mkDB (formfield_table db ++ [f]) (formfield_seq db + 1)
              (employee_table db) (employee_seq db)).
Proof.
  intros (Hf & Hfs & He & Hes & Hu) Hid. unfold db_wf. cbn.
  split_and!; try done.
  - rewrite fmap_app. apply NoDup_app. split_and!; [done| |apply NoDup_singleton].
    intros x (g & -> & Hg)%list_elem_of_fmap Hx.
    apply list_elem_of_singleton in Hx.
    rewrite Forall_forall in Hfs. specialize (Hfs g Hg). simpl in Hfs. lia.
  - apply Forall_app. split.
    + eapply Forall_impl; [done|]. intros g ?. simpl in *. lia.
    + constructor; [simpl; lia|constructor].
Qed.

Lemma db_wf_formfields db table :
  db_wf db →
  NoDup (FormField.id <$> table) →
  Forall (λ f, FormField.id f < formfield_seq db) table →
  db_wf (mkDB table (formfield_seq db) (employee_table db) (employee_seq db)).
Proof. intros (Hf & Hfs & He & Hes & Hu) ??. by unfold db_wf. Qed.

Lemma db_wf_employees db table :
  db_wf db →
  NoDup (Employee.id <$> table) →
  Forall (λ e, Employee.id e < employee_seq db) table →
  NoDup (Employee.user <$> table) →
  db_wf (mkDB (formfield_table db) (formfield_seq db) table (employee_seq db)).
Proof. intros (Hf & Hfs & He & Hes & Hu) ???. by unfold db_wf. Qed.

Lemma db_wf_append_employee db e :
  db_wf db → Employee.id e = employee_seq db →
  ¬ has_record db (Employee.user e) →
  db_wf (mkDB (formfield_table db) (formfield_seq db)
              (employee_table db ++ [e]) (employee_seq db + 1)).
Proof.
  intros (Hf & Hfs & He & Hes & Hu) Hid Hfree. unfold db_wf. cbn.
  split_and!; try done.
  - rewrite fmap_app. apply NoDup_app. split_and!; [done| |apply NoDup_singleton].
    intros x (g & -> & Hg)%list_elem_of_fmap Hx.
    apply list_elem_of_singleton in Hx.
    rewrite Forall_forall in Hes. specialize (Hes g Hg). simpl in Hes. lia.
  - apply Forall_app. split.
    + eapply Forall_impl; [done|]. intros g ?. simpl in *. lia.
    + constructor; [simpl; lia|constructor].
  - rewrite fmap_app. apply NoDup_app. split_and!; [done| |apply NoDup_singleton].
    intros x (g & -> & Hg)%list_elem_of_fmap Hx.
    apply list_elem_of_singleton in Hx.
    apply Hfree, Exists_exists. by exists g.
Qed.

(** The views that write keep the constraints of the schema: primary
    keys stay unique and below their sequence, and no user gets a second
    record.  The views are those of the pages and, of the API, the
    creation and deletion of a form field and the deletion and the
    partial update of a record. *)
Theorem views_keep_constraints (request : Request.t) (db : DB) (pk : Z)
    (data : FormFieldData.t) (fields : option (Py.dict Entry.t)) :
  db_wf db →
  db_wf (form_design_view request db).2
  ∧ db_wf (update_field_order request db).2
  ∧ db_wf (FormFieldListCreateView.create request data db).2
  ∧ db_wf (FormFieldRetrieveUpdateDestroyView.destroy request pk db).2
  ∧ db_wf (employee_create_view request db).2
  ∧ db_wf (employee_edit_view request pk db).2
  ∧ db_wf (employee_delete_view request pk db).2
  ∧ db_wf (EmployeeRetrieveUpdateDestroyView.destroy request pk db).2
  ∧ db_wf (EmployeeRetrieveUpdateDestroyView.partial_update request pk fields
             db).2.
Proof.
  intros Hwf. pose proof Hwf as (Hf & Hfs & He & Hes & Hu). split_and!.
  - destruct (form_design_view_cases request db) as [->|(f & Hid & _ & ->)];
      [done|by apply db_wf_append_formfield].
  - destruct (update_field_order_cases request db) as [steps ->].
    apply db_wf_formfields; [done|by rewrite assign_all_ids|].
    apply (Forall_fmap FormField.id (λ i, i < formfield_seq db)).
    rewrite assign_all_ids. by apply Forall_fmap.
  - destruct (formfield_api_create_cases request data db)
      as [->|(f & Hid & _ & _ & ->)];
      [done|by apply db_wf_append_formfield].
  - destruct (formfield_api_destroy_cases request pk db) as [->| ->];
      [done|]. cbn [snd].
    apply db_wf_formfields;
      [done|by apply NoDup_fmap_filter|by apply Forall_filter_keep].
  - destruct (employee_create_view_cases request db) as [->|[Hfree ->]];
      [done|]. by apply db_wf_append_employee.
  - destruct (employee_edit_view_cases request pk db)
      as [->|(e & d & Hin & _ & _ & ->)]; [done|].
    apply db_wf_employees; [done|by rewrite saved_ids| |by rewrite saved_users].
    apply (Forall_fmap Employee.id (λ i, i < employee_seq db)).
    rewrite saved_ids. by apply Forall_fmap.
  - destruct (employee_delete_view_cases request pk db)
      as [->|(e & _ & _ & _ & ->)]; [done|]. cbn [snd].
    apply db_wf_employees;
      [done|by apply NoDup_fmap_filter|by apply Forall_filter_keep
      |by apply NoDup_fmap_filter].
  - destruct (employee_api_destroy_cases request pk db) as [->| ->];
      [done|]. cbn [snd].
    apply db_wf_employees;
      [done|by apply NoDup_fmap_filter|by apply Forall_filter_keep
      |by apply NoDup_fmap_filter].
  - destruct (employee_api_update_cases request pk fields db)
      as [->|(e & d & Hin & _ & _ & ->)]; [done|].
    apply db_wf_employees; [done|by rewrite saved_ids| |by rewrite saved_users].
    apply (Forall_fmap Employee.id (λ i, i < employee_seq db)).
    rewrite saved_ids. by apply Forall_fmap.
Qed.

Lemma views_keep_constraints_witness :
  db_wf Examples.db_smith
  ∧ db_wf (employee_delete_view Examples.post_nothing 1 Examples.db_smith).2.
Proof.
  split; [by_evaluation|].
  apply (views_keep_constraints Examples.post_nothing Examples.db_smith 1
           (FormFieldData.mk None None None None) None ltac:(by_evaluation)).
Defined.

(** ** The check of the column [order] is kept *)







(** ** A primary key that the key column cannot hold *)



(** ** Deleting, then creating *)

Lemma employee_delete_view_inr request pk db r db1 :
  employee_delete_view request pk db = (inr r, db1) →
  ∃ e, e ∈ employee_table db ∧ Employee.id e = pk
       ∧ Employee.user e = Request.user request
       ∧ db1 = mkDB (formfield_table db) (formfield_seq db)
                    (filter (λ x, Employee.id x ≠ pk) (employee_table db))
                    (employee_seq db).
Proof.
  intros Hrun. unfold employee_delete_view in Hrun.
  destruct (EmployeeObjects_get_cases pk (Request.user request) db)
    as [[err Hget]|(e & Hin & Hid & Hue & _ & Hget)].
  - by erewrite bind_inl in Hrun.
  - erewrite bind_inr in Hrun by done.
    unfold EmployeeObjects.delete in Hrun. rewrite Hid in Hrun.
    injection Hrun as _ <-. by exists e.
Qed.

(** Deleting the record of a user frees the one place the user has: the
    next creation by that user succeeds, and the new record takes the
    next primary key. *)
Theorem delete_then_create (request request' : Request.t) (pk : Z) (db : DB)
    (r : HttpResponse) (db1 : DB) :
  db_wf db →
  Request.method request' = "POST" →
  Request.user request' = Request.user request →
  employee_delete_view request pk db = (inr r, db1) →
  employee_create_view request' db1
  = (inr (redirect "employee_list"),
     mkDB (formfield_table db) (formfield_seq db)
          (filter (λ e, Employee.id e ≠ pk) (employee_table db)
           ++ [created_record request' db1])
          (employee_seq db + 1))
  ∧ Employee.id (created_record request' db1) = employee_seq db.
Proof.
  intros (Hf & Hfs & He & Hes & Hu) Hm Huser Hrun.
  apply employee_delete_view_inr in Hrun as (e & Hin & Hid & Hue & ->).
  split; [|done].
  rewrite employee_create_view_post; [done..|].
  unfold has_record. cbn [employee_table]. rewrite Exists_exists.
  intros (x & [Hxid Hx]%list_elem_of_filter & Hxu).
  apply Hxid. rewrite <-Hid. f_equal.
  apply list_elem_of_lookup in Hx as [i Hi], Hin as [j Hj].
  rewrite NoDup_alt in Hu.
  assert (i = j) as ->; [|congruence].
  apply (Hu i j (Employee.user e)); rewrite list_lookup_fmap.
  - rewrite Hi. simpl. congruence.
  - by rewrite Hj.
Qed.

Lemma delete_then_create_witness :
  employee_create_view Examples.post_names
    (employee_delete_view Examples.post_nothing 1 Examples.db_smith).2
  = (inr (redirect "employee_list"),
     mkDB [Examples.first_name; Examples.foreign] 5
          [Employee.mk 2 7 [("Name", Entry.mk (Some "Smith") "text")]] 3).
Proof.
  apply (delete_then_create Examples.post_nothing Examples.post_names 1
           Examples.db_smith (redirect "employee_list")
           (employee_delete_view Examples.post_nothing 1 Examples.db_smith).2
           ltac:(by_evaluation) eq_refl eq_refl eq_refl).
Defined.

(** ** Reordering twice, and reordering with a bad entry *)








(** ** Ids as text *)

Lemma digit_pretty_N_char d :
  (d < 10)%N → Py.digit (pretty_N_char d) = Some (Z.of_N d).
Proof.
  intros Hd.
  assert (d = 0 ∨ d = 1 ∨ d = 2 ∨ d = 3 ∨ d = 4 ∨ d = 5 ∨ d = 6 ∨ d = 7
          ∨ d = 8 ∨ d = 9)%N as Hcases by lia.
  repeat (destruct Hcases as [->|Hcases]; [reflexivity|]). by subst.
Qed.

Lemma nospace_pretty_N_char d : Py.isspace (pretty_N_char d) = false.
Proof. unfold pretty_N_char. by repeat case_match. Qed.

Lemma digits_pretty_N_go x s acc seen :
  (0 < x)%N →
  ∃ m, Py.digits acc seen (pretty_N_go x s)
       = Py.digits (acc * m + Z.of_N x) true s.
Proof.
  revert s acc seen. induction (N.lt_wf_0 x) as [x _ IH]; intros s acc seen Hx.
  rewrite pretty_N_go_step by done.
  assert (x `mod` 10 < 10)%N as Hmod by (by apply N.mod_lt).
  destruct (decide (x `div` 10 = 0)%N) as [Hz|Hnz].
  - rewrite Hz, pretty_N_go_0. cbn [Py.digits].
    rewrite digit_pretty_N_char by done. exists 10. f_equal.
    pose proof (N.div_mod x 10 ltac:(done)). lia.
  - destruct (IH (x `div` 10)%N) with
      (s := String (pretty_N_char (x `mod` 10)) s) (acc := acc) (seen := seen)
      as [m ->]; [by apply N.div_lt|by apply N.neq_0_lt_0|].
    cbn [Py.digits]. rewrite digit_pretty_N_char by done.
    exists (10 * m). f_equal.
    pose proof (N.div_mod x 10 ltac:(done)). lia.
Qed.

Lemma nospace_pretty_N_go x s :
  nospace s = true → nospace (pretty_N_go x s) = true.
Proof.
  revert s. induction (N.lt_wf_0 x) as [x _ IH]; intros s Hs.
  destruct (decide (0 < x)%N) as [Hx|Hx].
  - rewrite pretty_N_go_step by done. apply IH; [by apply N.div_lt|].
    cbn [nospace]. by rewrite nospace_pretty_N_char, Hs.
  - assert (x = 0%N) as -> by lia. by rewrite pretty_N_go_0.
Qed.

Lemma nospace_rev_app s1 s2 :
  nospace (String.rev_app s1 s2) = nospace s1 && nospace s2.
Proof.
  revert s2. induction s1 as [|c s1 IH]; intros s2; [done|].
  cbn [String.rev_app nospace]. rewrite IH. cbn [nospace].
  by destruct (negb (Py.isspace c)), (nospace s1), (nospace s2).
Qed.

Lemma rev_app_rev_app s1 s2 s3 :
  String.rev_app (String.rev_app s1 s2) s3 = String.rev_app s2 (s1 +:+ s3).
Proof.
  revert s2 s3. induction s1 as [|c s1 IH]; intros s2 s3; [done|].
  cbn [String.rev_app]. by rewrite IH.
Qed.

Lemma append_empty_r s : s +:+ "" = s.
Proof.
  induction s as [|c s IH]; [done|].
  change (String c (s +:+ "") = String c s). by f_equal.
Qed.

Lemma lstrip_nospace s : nospace s = true → Py.lstrip s = s.
Proof.
  destruct s as [|c s]; [done|]. cbn [nospace Py.lstrip].
  by destruct (Py.isspace c).
Qed.

Lemma strip_nospace s : nospace s = true → Py.strip s = s.
Proof.
  intros Hs. unfold Py.strip, String.rev.
  rewrite (lstrip_nospace s) by done.
  rewrite lstrip_nospace by (by rewrite nospace_rev_app, Hs).
  by rewrite rev_app_rev_app, append_empty_r.
Qed.

Lemma int_unsigned s n :
  Py.strip s = s → Py.digits 0 false s = Some n → Py.int s = Some n.
Proof.
  intros Hstrip Hdigits. unfold Py.int. rewrite Hstrip.
  destruct s as [|c s]; [done|].
  assert (c ≠ "-"%char ∧ c ≠ "+"%char) as [Hminus Hplus].
  { split; intros ->; vm_compute in Hdigits; discriminate. }
  destruct c as [[] [] [] [] [] [] [] []];
    first [exact Hdigits | by destruct Hminus | by destruct Hplus].
Qed.

(** [int] reads back what [str] writes. *)
Lemma int_str n : Py.int (Py.str n) = Some n.
Proof.
  unfold Py.str, pretty, pretty_Z. destruct n as [|p|p].
  - reflexivity.
  - unfold pretty, pretty_positive, pretty, pretty_N.
    rewrite decide_False by done.
    destruct (digits_pretty_N_go (N.pos p) "" 0 false ltac:(lia)) as [m Hm].
    apply int_unsigned.
    + apply strip_nospace. by apply nospace_pretty_N_go.
    + rewrite Hm. cbn [Py.digits]. f_equal; lia.
  - unfold pretty, pretty_positive, pretty, pretty_N.
    rewrite decide_False by done.
    destruct (digits_pretty_N_go (N.pos p) "" 0 false ltac:(lia)) as [m Hm].
    unfold Py.int. rewrite strip_nospace.
    + change (Z.opp <$> Py.digits 0 false (pretty_N_go (N.pos p) "")
              = Some (Z.neg p)).
      rewrite Hm. cbn [Py.digits fmap option_fmap option_map]. f_equal; lia.
    + change (nospace (String "-" (pretty_N_go (N.pos p) "")) = true).
      cbn [nospace]. by rewrite nospace_pretty_N_go.
Qed.

(** Ids posted in their decimal form are read back as they were: the
    sequence [order[]] built with [str] from a list of ids (integers of
    the key column) reorders by that list. *)
Theorem update_field_order_str_ids (request : Request.t) (db : DB)
    (ids : list Z) :
  Request.method request = "POST" →
  Request.is_ajax request = true →
  QueryDict.getlist (Request.POST request) "order[]" = Py.str <$> ids →
  Forall int64 ids →
  Z.of_nat (length ids) ≤ 2 ^ 63 →
  update_field_order request db
  = (inr reorder_success,
     mkDB (assign_all (Request.user request) (formfield_table db)
                      (Py.enumerate ids))
          (formfield_seq db) (employee_table db) (employee_seq db)).
Proof.
  intros Hm Hajax Horder Hrange Hlen. unfold update_field_order.
  rewrite Hajax, bool_decide_eq_true_2 by done. cbn [andb].
  erewrite bind_inr; [reflexivity|].
  apply reorder_loop_run; [|done|done|lia]. rewrite Horder.
  apply Forall2_fmap_l, Forall_Forall2_diag, Forall_forall.
  intros n _. apply int_str.
Qed.

Lemma update_field_order_str_ids_witness :
  update_field_order
    (Request.mk 7 "POST" ∅
       (Examples.querydict [("order[]", Py.str <$> [3; 1])]) true)
    Examples.db_fresh
  = (inr reorder_success,
     mkDB [FormField.set_order 0 Examples.age;
           FormField.set_order 1 Examples.first_name; Examples.foreign]
          5 [] 1).
Proof.
  apply (update_field_order_str_ids
           (Request.mk 7 "POST" ∅
              (Examples.querydict [("order[]", Py.str <$> [3; 1])]) true)
           Examples.db_fresh [3; 1] eq_refl eq_refl eq_refl);
    by_evaluation.
Defined.

(** ** Creating, then listing *)

Lemma field_key_inj f g :
  field_key f = field_key g → FormField.id f = FormField.id g.
Proof.
  unfold field_key, Py.str. intros Hkey.
  apply (inj (String.app "field_")) in Hkey. by apply (inj pretty) in Hkey.
Qed.

Lemma own_fields_ids_NoDup db user :
  NoDup (FormField.id <$> formfield_table db) →
  NoDup (FormField.id <$> own_fields db user).
Proof.
  intros Hnd. unfold own_fields. rewrite order_by_order_Permutation.
  by apply NoDup_fmap_filter.
Qed.

Lemma post_of_get vals form_fields f :
  NoDup (FormField.id <$> form_fields) → f ∈ form_fields →
  QueryDict.get (post_of vals form_fields) (field_key f)
  = Some (vals (FormField.id f)).
Proof.
  intros Hnd Hf. unfold QueryDict.get, post_of.
  rewrite (elem_of_list_to_map_1 _ (field_key f) [vals (FormField.id f)]);
    [done| |].
  - rewrite <-list_fmap_compose.
    apply NoDup_fmap_2_strong; [|by eapply NoDup_fmap_1].
    intros x y Hx Hy Hkey. simpl in Hkey. apply field_key_inj in Hkey.
    apply list_elem_of_lookup in Hx as [i Hi], Hy as [j Hj].
    rewrite NoDup_alt in Hnd.
    assert (i = j) as ->; [|congruence].
    apply (Hnd i j (FormField.id x)); rewrite list_lookup_fmap.
    + by rewrite Hi.
    + rewrite Hj. simpl. by rewrite Hkey.
  - apply list_elem_of_fmap. by exists f.
Qed.

(** Round trip of a submission.  Let the user have no record and form
    fields of distinct labels, and let the POST carry one value for each
    of them.  Then [employee_create_view] succeeds, and
    [employee_list_view] without a search term lists exactly one record,
    which holds under the label of every field the value submitted for
    it and the type of the field. *)
Theorem create_then_list (request request' : Request.t) (db : DB)
    (vals : Z → string) :
  db_wf db →
  Request.method request = "POST" →
  ¬ has_record db (Request.user request) →
  NoDup (FormField.label <$> own_fields db (Request.user request)) →
  Request.POST request = post_of vals (own_fields db (Request.user request)) →
  Request.user request' = Request.user request →
  search_query request' = "" →
  ∃ e db1,
    employee_create_view request db = (inr (redirect "employee_list"), db1)
    ∧ employee_list_view request' db1
      = (inr (render "employee_list.html"
                (employee_list_ctx [e]
                   (own_fields db (Request.user request)) "")), db1)
    ∧ ∀ f, f ∈ formfield_table db →
           FormField.created_by f = Request.user request →
           Py.get (Employee.fields e) (FormField.label f)
           = Some (Entry.mk (Some (vals (FormField.id f)))
                            (FormField.field_type f)).
Proof.
  intros (Hf & _) Hm Hfree Hlabels Hpost Hu Hq.
  eexists (created_record request db), _. split_and!.
  - by apply employee_create_view_post.
  - unfold employee_list_view.
    erewrite bind_inr by reflexivity. erewrite bind_inr by reflexivity.
    fold (search_query request'). rewrite Hq, Hu. cbn [employee_table].
    rewrite filter_app, (filter_not_Exists _ _ Hfree).
    by rewrite filter_cons_True.
  - intros f Hin Hown.
    assert (f ∈ own_fields db (Request.user request)) as Hf'
      by (by apply elem_of_own_fields).
    cbn [created_record Employee.fields]. rewrite fields_loop_get.
    destruct (last_labelled_Some (FormField.label f) _ f Hf' eq_refl)
      as (g & -> & Hg & Hl).
    assert (g = f) as ->.
    { apply list_elem_of_lookup in Hg as [i Hi], Hf' as [j Hj].
      rewrite NoDup_alt in Hlabels.
      assert (i = j) as ->; [|congruence].
      apply (Hlabels i j (FormField.label f)); rewrite list_lookup_fmap.
      - rewrite Hi. simpl. by rewrite Hl.
      - by rewrite Hj. }
    simpl. unfold entry_of. fold (field_key f).
    rewrite Hpost, post_of_get; [done| |done].
    by apply own_fields_ids_NoDup.
Qed.

Lemma create_then_list_witness :
  ∃ e db1,
    employee_create_view
      (Request.mk 7 "POST" ∅
         (post_of (λ i, "v" +:+ Py.str i) (own_fields Examples.db_fresh 7))
         false)
      Examples.db_fresh
    = (inr (redirect "employee_list"), db1)
    ∧ Py.get (Employee.fields e) "Age" = Some (Entry.mk (Some "v3") "number").
Proof.
  destruct (create_then_list
              (Request.mk 7 "POST" ∅
                 (post_of (λ i, "v" +:+ Py.str i)
                          (own_fields Examples.db_fresh 7)) false)
              (Request.mk 7 "GET" ∅ ∅ false) Examples.db_fresh
              (λ i, "v" +:+ Py.str i)
              ltac:(by_evaluation) eq_refl ltac:(by_evaluation)
              ltac:(by_evaluation) eq_refl eq_refl eq_refl)
    as (e & db1 & Hrun & _ & Hfields).
  exists e, db1. split; [exact Hrun|].
  apply (Hfields Examples.age); [by_evaluation|reflexivity].
Defined.

(** ** Searching for a stored value *)
















(** ** Listing form fields *)

Lemma insert_by_order_sorted f l :
  StronglySorted (λ f g, FormField.order f ≤ FormField.order g) l →
  StronglySorted (λ f g, FormField.order f ≤ FormField.order g)
                 (insert_by_order f l).
Proof.
  induction 1 as [|g l Hl IH Hg]; cbn [insert_by_order].
  - by repeat constructor.
  - case_decide as Hle.
    + constructor; [by constructor|]. constructor; [done|].
      eapply Forall_impl; [done|]. intros h ?. simpl in *. lia.
    + constructor; [done|].
      rewrite insert_by_order_Permutation. constructor; [lia|done].
Qed.

Lemma order_by_order_sorted l :
  StronglySorted (λ f g, FormField.order f ≤ FormField.order g)
                 (order_by_order l).
Proof.
  induction l as [|f l IH]; [constructor|]. by apply insert_by_order_sorted.
Qed.

(** The API lists to a user the form fields of that user and no others,
    each as often as the table has it, by ascending [order]; the page of
    [form_design_view] shows the same list.  Neither writes. *)
Theorem formfield_list_sorted (request : Request.t) (db : DB) :
  Request.method request ≠ "POST" →
  ∃ l,
    FormFieldListCreateView.list request db
    = (inr (Response (formfield_list_data l) 200), db)
    ∧ form_design_view request db
      = (inr (render "form_design.html" (form_design_ctx l)), db)
    ∧ l ≡ₚ filter (λ f, FormField.created_by f = Request.user request)
                  (formfield_table db)
    ∧ (∀ f, f ∈ l ↔ f ∈ formfield_table db
                    ∧ FormField.created_by f = Request.user request)
    ∧ StronglySorted (λ f g, FormField.order f ≤ FormField.order g) l.
Proof.
  intros Hm. exists (own_fields db (Request.user request)). split_and!.
  - reflexivity.
  - unfold form_design_view. by rewrite decide_False.
  - apply order_by_order_Permutation.
  - intros f. apply elem_of_own_fields.
  - apply order_by_order_sorted.
Qed.

Lemma formfield_list_sorted_witness :
  ∃ l, FormFieldListCreateView.list (Request.mk 7 "GET" ∅ ∅ false)
         Examples.db_two_names
       = (inr (Response (formfield_list_data l) 200), Examples.db_two_names)
       ∧ l = [Examples.first_name; Examples.second_name; Examples.age].
Proof.
  destruct (formfield_list_sorted (Request.mk 7 "GET" ∅ ∅ false)
              Examples.db_two_names ltac:(by_evaluation))
    as (l & Hrun & _).
  exists l. split; [exact Hrun|]. by injection Hrun as <-.
Defined.

(** ** Operations on what belongs to another user *)

(** A user who asks for a record by a primary key (one the key column
    can hold) under which the user has no record gets the same refusal
    whether or not a record of another user has that key:
    [DoesNotExist] from the pages that edit and delete, status 404 from
    the API; nothing is written. *)
Theorem foreign_record_not_found (request : Request.t) (pk : Z) (db : DB) :
  int64 pk →
  (∀ e, e ∈ employee_table db → Employee.id e = pk →
        Employee.user e ≠ Request.user request) →
  employee_edit_view request pk db = (inl DoesNotExist, db)
  ∧ employee_delete_view request pk db = (inl DoesNotExist, db)
  ∧ EmployeeRetrieveUpdateDestroyView.retrieve request pk db
    = (inr not_found, db)
  ∧ EmployeeRetrieveUpdateDestroyView.destroy request pk db
    = (inr not_found, db).
Proof.
  intros Hpk Hmiss.
  split_and!.
  - by apply employee_edit_view_missing.
  - by apply employee_delete_view_missing.
  - unfold EmployeeRetrieveUpdateDestroyView.retrieve.
    by erewrite bind_inr by by apply employee_get_object_missing.
  - unfold EmployeeRetrieveUpdateDestroyView.destroy.
    by erewrite bind_inr by by apply employee_get_object_missing.
Qed.

Lemma foreign_record_not_found_witness :
  employee_delete_view (Request.mk 8 "POST" ∅ ∅ false) 1 Examples.db_smith
  = (inl DoesNotExist, Examples.db_smith).
Proof.
  apply (foreign_record_not_found (Request.mk 8 "POST" ∅ ∅ false) 1
           Examples.db_smith ltac:(by_evaluation)).
  intros e [->|Hin%elem_of_nil]%elem_of_cons _; [by_evaluation|done].
Defined.

(** The same for form fields: reading or deleting through the API a form
    field the user does not have answers 404 and writes nothing, whether
    or not another user has a field with that key; the key is one the
    key column can hold. *)
Theorem foreign_field_not_found (request : Request.t) (pk : Z) (db : DB) :
  int64 pk →
  (∀ f, f ∈ formfield_table db → FormField.id f = pk →
        FormField.created_by f ≠ Request.user request) →
  FormFieldRetrieveUpdateDestroyView.retrieve request pk db
  = (inr not_found, db)
  ∧ FormFieldRetrieveUpdateDestroyView.destroy request pk db
    = (inr not_found, db).
Proof.
  intros Hpk Hmiss.
  assert (head (filter (λ f, FormField.id f = pk)
                  (own_fields db (Request.user request))) = None) as Hhead.
  { apply head_None. apply filter_not_Exists. rewrite Exists_exists.
    intros (f & [Hf Hu]%elem_of_own_fields & Hid). by apply (Hmiss f). }
  split.
  - unfold FormFieldRetrieveUpdateDestroyView.retrieve.
    erewrite bind_inr by by apply formfield_get_object_run.
    by rewrite Hhead.
  - unfold FormFieldRetrieveUpdateDestroyView.destroy.
    erewrite bind_inr by by apply formfield_get_object_run.
    by rewrite Hhead.
Qed.

Lemma foreign_field_not_found_witness :
  FormFieldRetrieveUpdateDestroyView.destroy (Request.mk 7 "DELETE" ∅ ∅ false)
    4 Examples.db_fresh
  = (inr not_found, Examples.db_fresh).
Proof.
  apply (foreign_field_not_found (Request.mk 7 "DELETE" ∅ ∅ false) 4
           Examples.db_fresh ltac:(by_evaluation)).
  intros f Hf Hid. 
  repeat (apply elem_of_cons in Hf as [->|Hf]; [by_evaluation || discriminate Hid|]).
  by apply elem_of_nil in Hf.
Defined.

(** ** Defining a field: what is checked and what is not *)

(** A POST to [form_design_view] that lacks the label or the type raises
    [IntegrityError] and stores nothing.  When both are there the field
    is stored as [required] exactly when the POST carries [required=on],
    and as not required also when [required] is absent. *)
Theorem form_design_view_required (request : Request.t) (db : DB) :
  Request.method request = "POST" →
  ((QueryDict.get (Request.POST request) "label" = None
    ∨ QueryDict.get (Request.POST request) "field_type" = None) →
   form_design_view request db = (inl IntegrityError, db))
  ∧ (∀ r db', form_design_view request db = (inr r, db') →
       ∃ f, formfield_table db' = formfield_table db ++ [f]
            ∧ (FormField.required f = true
               ↔ QueryDict.get (Request.POST request) "required" = Some "on")).
Proof.
  intros Hm. unfold form_design_view. rewrite decide_True by done.
  destruct (QueryDict.get (Request.POST request) "label") as [l|];
    destruct (QueryDict.get (Request.POST request) "field_type") as [t|];
    (split; [intros [?|?]; done|]); try (by intros r db' Hrun).
  intros r db' [= _ <-]. eexists. split; [reflexivity|].
  cbn [FormField.required]. apply bool_decide_eq_true.
Qed.

Lemma form_design_view_required_witness :
  form_design_view
    (Request.mk 7 "POST" ∅ (Examples.querydict [("field_type", ["text"])])
                false)
    Examples.db_fresh
  = (inl IntegrityError, Examples.db_fresh).
Proof.
  apply (form_design_view_required
           (Request.mk 7 "POST" ∅
              (Examples.querydict [("field_type", ["text"])]) false)
           Examples.db_fresh eq_refl).
  by left.
Defined.

(** Through the API a form field is created only with a type among
    [FIELD_TYPES]: any other type, or none, is answered with status 400
    and nothing is written; and a field that has been created (status
    201) has one of the eight types, belongs to the user who asked, takes
    the next primary key and has a label that is not blank. *)
Theorem formfield_api_create_validates (request : Request.t)
    (data : FormFieldData.t) (db : DB) :
  ((∀ t, FormFieldData.field_type data = Some t → t ∉ FIELD_TYPES.*1) →
   ∃ errors,
     FormFieldListCreateView.create request data db
     = (inr (Response (errors_data errors) 400), db))
  ∧ (∀ f db',
       FormFieldListCreateView.create request data db
       = (inr (Response (formfield_data f) 201), db') →
       FormField.field_type f ∈ FIELD_TYPES.*1
       ∧ FormField.created_by f = Request.user request
       ∧ FormField.id f = formfield_seq db
       ∧ FormField.label f ≠ ""
       ∧ db' = mkDB (formfield_table db ++ [f]) (formfield_seq db + 1)
                    (employee_table db) (employee_seq db)).
Proof.
  split.
  - intros Hbad. unfold FormFieldListCreateView.create.
    destruct (FormFieldSerializer_errors data) as [|err errs] eqn:Herr;
      [|by eexists].
    exfalso.
    apply FormFieldSerializer_valid in Herr as (l & t & _ & Ht & _ & Hty).
    by apply (Hbad t).
  - intros f db' Hrun.
    unfold FormFieldListCreateView.create,
      FormFieldListCreateView.perform_create in Hrun.
    destruct (FormFieldSerializer_errors data) as [|err errs] eqn:Herr;
      [|done].
    apply FormFieldSerializer_valid in Herr as (l & t & Hl & Ht & Hblank & Hty).
    rewrite Hl, Ht in Hrun. cbn [fmap option_fmap option_map] in Hrun.
    set (order := default 0 (FormFieldData.order data)) in Hrun.
    destruct (decide (int64 order)) as [Hrange|Hrange].
    + destruct (decide (0 ≤ order)) as [Hpos|Hneg].
      * erewrite bind_inr in Hrun
          by (apply FormFieldObjects_create_run; unfold int64 in Hrange; lia).
        injection Hrun as <- <-. done.
      * by erewrite bind_inl in Hrun
          by (apply FormFieldObjects_create_negative;
              unfold int64 in Hrange; lia).
    + by erewrite bind_inl in Hrun
        by by apply FormFieldObjects_create_overflow.
Qed.

(** ** A key per field *)

(** Two form fields read the same POST key only if they have the same
    primary key: what is submitted for one field is never taken for
    another. *)
Theorem field_key_distinct (POST : QueryDict.t) (f g : FormField.t) :
  FormField.id f ≠ FormField.id g →
  field_key f ≠ field_key g
  ∧ ∀ v, Entry.value (entry_of (<[field_key f := [v]]> POST) g)
         = Entry.value (entry_of POST g).
Proof.
  intros Hne.
  assert (field_key f ≠ field_key g) as Hkey
    by (intros Hk; by apply field_key_inj in Hk).
  split; [done|]. intros v. unfold entry_of. cbn [Entry.value].
  fold (field_key g). unfold QueryDict.get. by rewrite lookup_insert_ne.
Qed.

Lemma field_key_distinct_witness :
  field_key Examples.first_name ≠ field_key Examples.second_name.
Proof.
  apply (field_key_distinct ∅ Examples.first_name Examples.second_name).
  by_evaluation.
Defined.

(** * Properties of the accounts *)

Section accounts_properties.
Variable normalize_email : string → string.
Variable make_password : option string → string.
Variable check_password : option string → string → bool.
Variable session_auth_hash : string → string.

Lemma falsy_false x : falsy x = false → ∃ s, x = Some s ∧ s ≠ "".
Proof.
  destruct x as [s|]; [|done]. simpl. intros Hs%bool_decide_eq_false.
  by exists s.
Qed.

(** The outcomes of the insert. *)
Lemma insert_user_cases email password extra st :
  insert_user make_password email password extra st = (inl IntegrityError, st)
  ∨ ∃ u, insert_user make_password email password extra st
         = (inr u, mkAccounts (user_table st ++ [u]) (user_seq st + 1)
                              (session st))
         ∧ ¬ Exists (λ v, CustomUser.email v = email) (user_table st)
         ∧ CustomUser.id u = user_seq st
         ∧ CustomUser.email u = email
         ∧ CustomUser.password u = make_password password
         ∧ CustomUser.is_staff u = default false (ExtraFields.is_staff extra)
         ∧ CustomUser.is_superuser u
           = default false (ExtraFields.is_superuser extra).
Proof.
  unfold insert_user.
  destruct (default (Some "") (ExtraFields.first_name extra)) as [fn|];
    [|by left].
  destruct (default (Some "") (ExtraFields.last_name extra)) as [ln|];
    [|by left].
  case_decide as Htaken; [by left|]. right. by eexists.
Qed.

(** The outcomes of [create_user]. *)
Lemma create_user_cases email password extra st :
  (∃ e, create_user normalize_email make_password email password extra st
        = (inl e, st))
  ∨ ∃ raw u,
      email = Some raw ∧ raw ≠ ""
      ∧ create_user normalize_email make_password email password extra st
        = (inr u, mkAccounts (user_table st ++ [u]) (user_seq st + 1)
                             (session st))
      ∧ ¬ Exists (λ v, CustomUser.email v = normalize_email raw) (user_table st)
      ∧ CustomUser.id u = user_seq st
      ∧ CustomUser.email u = normalize_email raw
      ∧ CustomUser.password u = make_password password
      ∧ CustomUser.is_staff u = default false (ExtraFields.is_staff extra)
      ∧ CustomUser.is_superuser u
        = default false (ExtraFields.is_superuser extra).
Proof.
  unfold create_user. destruct (falsy email) eqn:Hfalsy; [left; by eexists|].
  apply falsy_false in Hfalsy as (raw & -> & Hraw).
  change (default "" (Some raw)) with raw.
  destruct (insert_user_cases (normalize_email raw) password extra st)
    as [->|(u & -> & Hu)]; [left; by eexists|].
  right. by exists raw, u.
Qed.

(** [create_user] raises [ValueError] and stores nothing when the email is
    missing or empty.  When it succeeds it has appended one user, with
    the next primary key, the normalized email, which no user had
    before, and the hash of the password; the user is staff or superuser
    only if the caller said so. *)
Theorem create_user_stores (email password : option string)
    (extra : ExtraFields.t) (st : Accounts) :
  (falsy email = true →
   create_user normalize_email make_password email password extra st
   = (inl ValueError, st))
  ∧ (∀ u st',
       create_user normalize_email make_password email password extra st
       = (inr u, st') →
       ∃ raw, email = Some raw ∧ raw ≠ ""
              ∧ st' = mkAccounts (user_table st ++ [u]) (user_seq st + 1)
                                 (session st)
              ∧ CustomUser.id u = user_seq st
              ∧ CustomUser.email u = normalize_email raw
              ∧ (∀ v, v ∈ user_table st →
                      CustomUser.email v ≠ normalize_email raw)
              ∧ CustomUser.password u = make_password password
              ∧ CustomUser.is_staff u
                = default false (ExtraFields.is_staff extra)
              ∧ CustomUser.is_superuser u
                = default false (ExtraFields.is_superuser extra)).
Proof.
  split.
  - intros Hfalsy. unfold create_user. by rewrite Hfalsy.
  - intros u st' Hrun.
    destruct (create_user_cases email password extra st)
      as [[e He]|(raw & u' & Hemail & Hraw & Hok & Hfree & Hrest)].
    { rewrite He in Hrun. discriminate. }
    rewrite Hok in Hrun. injection Hrun as -> <-.
    exists raw. split_and!; try tauto.
    intros v Hv Heq. apply Hfree, Exists_exists. by exists v.
Qed.

(** [create_superuser] never stores a user who is not both staff and
    superuser: it raises [ValueError] and stores nothing when the caller
    passes [is_staff=False] or [is_superuser=False], and every user it
    returns has both flags. *)
Theorem create_superuser_flags (email password : option string)
    (extra : ExtraFields.t) (st : Accounts) :
  (ExtraFields.is_staff extra = Some false
   ∨ ExtraFields.is_superuser extra = Some false →
   create_superuser normalize_email make_password email password extra st
   = (inl ValueError, st))
  ∧ (∀ u st',
       create_superuser normalize_email make_password email password extra st
       = (inr u, st') →
       CustomUser.is_staff u = true ∧ CustomUser.is_superuser u = true
       ∧ user_table st' = user_table st ++ [u]).
Proof.
  unfold create_superuser.
  destruct extra as [fn ln ph ad staff super].
  cbn [ExtraFields.setdefault_staff ExtraFields.setdefault_superuser
       ExtraFields.is_staff ExtraFields.is_superuser ExtraFields.first_name
       ExtraFields.last_name ExtraFields.phone ExtraFields.address].
  split.
  - intros [->| ->]; [done|]. cbn [default]. by repeat case_decide.
  - intros u st'. repeat case_decide; try done. intros Hrun.
    destruct (create_user_cases email password
                (ExtraFields.setdefault_superuser
                   (ExtraFields.setdefault_staff
                      (ExtraFields.mk fn ln ph ad staff super))) st)
      as [[e He]|(raw & u' & _ & _ & Hok & _ & _ & _ & _ & Hstaff & Hsuper)].
    { rewrite He in Hrun. discriminate. }
    rewrite Hok in Hrun. injection Hrun as -> <-.
    cbn in Hstaff, Hsuper. split_and!; [| |done].
    + rewrite Hstaff. by destruct staff as [[]|].
    + rewrite Hsuper. by destruct super as [[]|].
Qed.

(** ** Registering and logging in *)

Lemma register_view_cases request st :
  (register_view normalize_email make_password request st).2 = st
  ∨ ∃ raw u,
      QueryDict.get (Request.POST request) "email" = Some raw
      ∧ QueryDict.get (Request.POST request) "password"
        = QueryDict.get (Request.POST request) "password2"
      ∧ register_view normalize_email make_password request st
        = (inr (render_page "login.html" None),
           mkAccounts (user_table st ++ [u]) (user_seq st + 1) (session st))
      ∧ ¬ Exists (λ v, CustomUser.email v = normalize_email raw) (user_table st)
      ∧ CustomUser.id u = user_seq st
      ∧ CustomUser.email u = normalize_email raw
      ∧ CustomUser.password u
        = make_password (QueryDict.get (Request.POST request) "password")
      ∧ CustomUser.is_staff u = false
      ∧ CustomUser.is_superuser u = false.
Proof.
  unfold register_view. case_decide; [|by left].
  case_decide as Hpw; [by left|]. case_decide; [by left|].
  destruct (create_user_cases (QueryDict.get (Request.POST request) "email")
              (QueryDict.get (Request.POST request) "password")
              (ExtraFields.mk
                 (Some (QueryDict.get (Request.POST request) "first_name"))
                 (Some (QueryDict.get (Request.POST request) "last_name"))
                 None None None None) st)
    as [[e ->]|(raw & u & Hemail & _ & -> & Hrest)]; [by left|].
  right. by exists raw, u.
Qed.

(** [register_view] stores nothing when the two passwords differ or when
    a user has the email, and shows the form again with the reason.  A
    user it has stored is neither staff nor superuser and carries the
    hash of the password that was typed twice. *)
Theorem register_view_refuses (request : Request.t) (st : Accounts) :
  Request.method request = "POST" →
  (QueryDict.get (Request.POST request) "password"
   ≠ QueryDict.get (Request.POST request) "password2" →
   register_view normalize_email make_password request st
   = (inr (render_page "register.html" (Some "Passwords do not match")), st))
  ∧ (QueryDict.get (Request.POST request) "password"
     = QueryDict.get (Request.POST request) "password2" →
     (∃ u, u ∈ user_table st
           ∧ QueryDict.get (Request.POST request) "email"
             = Some (CustomUser.email u)) →
     register_view normalize_email make_password request st
     = (inr (render_page "register.html" (Some "Email already exists")), st))
  ∧ (∀ r st',
       register_view normalize_email make_password request st = (r, st') →
       st' = st
       ∨ ∃ u, user_table st' = user_table st ++ [u]
              ∧ CustomUser.is_staff u = false
              ∧ CustomUser.is_superuser u = false
              ∧ CustomUser.password u
                = make_password
                    (QueryDict.get (Request.POST request) "password")).
Proof.
  intros Hm. split_and!.
  - intros Hpw. unfold register_view. by rewrite !decide_True.
  - intros Hpw (u & Hu & Hemail). unfold register_view.
    rewrite decide_True by done.
    rewrite decide_False by (intros Hn; by apply Hn).
    rewrite decide_True; [done|].
    rewrite Hemail. cbn [users_with_email].
    intros Hnil. by eapply (filter_nil_not_elem_of _ _ u Hnil).
  - intros r st' Hrun.
    destruct (register_view_cases request st)
      as [Hsame|(raw & u & _ & _ & Hok & _ & _ & _ & Hpw & Hstaff & Hsuper)].
    + left. by rewrite Hrun in Hsame.
    + right. rewrite Hok in Hrun. injection Hrun as _ <-. by exists u.
Qed.

(** Registering and then logging in.  Let the passwords typed match and
    be non-empty, the names be given, the email be non-empty, in
    normalized form and not yet registered, and let the hasher accept
    the password it has hashed.  Then [register_view] stores the user
    and shows the login page, and [login_view] with that email and
    password puts this user into the session, with the hash of the
    password, and redirects to the profile. *)
Theorem register_then_login (request request' : Request.t) (st : Accounts)
    (email password first_name last_name : string) :
  Request.method request = "POST" →
  Request.method request' = "POST" →
  QueryDict.get (Request.POST request) "email" = Some email →
  QueryDict.get (Request.POST request) "password" = Some password →
  QueryDict.get (Request.POST request) "password2" = Some password →
  QueryDict.get (Request.POST request) "first_name" = Some first_name →
  QueryDict.get (Request.POST request) "last_name" = Some last_name →
  QueryDict.get (Request.POST request') "email" = Some email →
  QueryDict.get (Request.POST request') "password" = Some password →
  email ≠ "" → password ≠ "" →
  normalize_email email = email →
  (∀ u, u ∈ user_table st → CustomUser.email u ≠ email) →
  check_password (Some password) (make_password (Some password)) = true →
  ∃ u,
    register_view normalize_email make_password request st
    = (inr (render_page "login.html" None),
       mkAccounts (user_table st ++ [u]) (user_seq st + 1) (session st))
    ∧ CustomUser.id u = user_seq st
    ∧ CustomUser.email u = email
    ∧ login_view check_password session_auth_hash request'
        (mkAccounts (user_table st ++ [u]) (user_seq st + 1) (session st))
      = (inr (redirect_to "profile"),
         mkAccounts (user_table st ++ [u]) (user_seq st + 1)
           (Some (Session.mk (user_seq st)
                    (session_auth_hash (make_password (Some password)))))).
Proof.
  intros Hm Hm' He Hp Hp2 Hfn Hln He' Hp' Hene Hpne Hnorm Hfree Hcheck.
  assert (filter (λ u, CustomUser.email u = email) (user_table st) = [])
    as Hnone.
  { apply filter_not_Exists. rewrite Exists_exists.
    intros (u & Hu & Heq). by apply (Hfree u). }
  set (u := CustomUser.mk (user_seq st) email (make_password (Some password))
              first_name last_name None None false false).
  exists u. split_and!; try done.
  - unfold register_view. rewrite decide_True by done.
    rewrite He, Hp, Hp2, Hfn, Hln.
    rewrite decide_False by (intros Hn; by apply Hn).
    cbn [users_with_email]. rewrite Hnone, decide_False by (intros Hn; by apply Hn).
    unfold create_user. cbn [falsy]. rewrite bool_decide_eq_false_2 by done.
    change (default "" (Some email)) with email. rewrite Hnorm.
    unfold insert_user.
    cbn [ExtraFields.first_name ExtraFields.last_name default]. unfold id.
    rewrite decide_False; [done|].
    rewrite Exists_exists. intros (v & Hv & Heq). by apply (Hfree v).
  - unfold login_view. rewrite decide_True by done. rewrite He', Hp'.
    cbn [falsy]. rewrite !bool_decide_eq_false_2 by done. cbn [orb].
    cbn [users_with_email user_table].
    rewrite filter_app, Hnone, filter_cons_True by done.
    cbn [app head CustomUser.password u]. by rewrite Hcheck.
Qed.

(** [login_view] gives one and the same answer, and leaves the state as
    it is, when no user has the email and when the password does not
    check: the answer does not tell whether the email is registered.
    The columns of the users stay as they are in every case, and the
    session changes only to a user who has the email and whose password
    checks. *)
Theorem login_view_failure (request : Request.t) (st : Accounts)
    (email password : string) :
  Request.method request = "POST" →
  QueryDict.get (Request.POST request) "email" = Some email →
  QueryDict.get (Request.POST request) "password" = Some password →
  email ≠ "" → password ≠ "" →
  ((∀ u, u ∈ user_table st → CustomUser.email u = email →
         check_password (Some password) (CustomUser.password u) = false) →
   login_view check_password session_auth_hash request st
   = (inr (render_page "login.html" (Some "Incorrect email or password.")),
      st))
  ∧ (∀ r st', login_view check_password session_auth_hash request st = (r, st') →
       user_table st' = user_table st ∧ user_seq st' = user_seq st
       ∧ (session st' = session st
          ∨ ∃ u, u ∈ user_table st ∧ CustomUser.email u = email
                 ∧ check_password (Some password) (CustomUser.password u) = true
                 ∧ session st'
                   = Some (Session.mk (CustomUser.id u)
                             (session_auth_hash (CustomUser.password u))))).
Proof.
  intros Hm He Hp Hene Hpne.
  assert (login_view check_password session_auth_hash request st
          = match head (filter (λ u, CustomUser.email u = email)
                               (user_table st)) with
            | Some user =>
                if check_password (Some password) (CustomUser.password user)
                then (inr (redirect_to "profile"),
                      mkAccounts (user_table st) (user_seq st)
                        (Some (Session.mk (CustomUser.id user)
                                 (session_auth_hash
                                    (CustomUser.password user)))))
                else (inr (render_page "login.html"
                             (Some "Incorrect email or password.")), st)
            | None => (inr (render_page "login.html"
                              (Some "Incorrect email or password.")), st)
            end) as Hrun.
  { unfold login_view. rewrite decide_True by done. rewrite He, Hp.
    cbn [falsy]. by rewrite !bool_decide_eq_false_2 by done. }
  rewrite Hrun. clear Hrun.
  destruct (head (filter _ (user_table st))) as [u|] eqn:Hhead.
  - assert (u ∈ filter (λ u, CustomUser.email u = email) (user_table st))
      as [Hue Hu]%list_elem_of_filter.
    { destruct (filter _ (user_table st)); [done|].
      injection Hhead as ->. left. }
    split.
    + intros Hbad. by rewrite (Hbad u).
    + intros r st'.
      destruct (check_password _ _) eqn:Hcheck; intros [= <- <-].
      * split_and!; [done..|]. right. by exists u.
      * split_and!; [done..|]. by left.
  - split; [done|]. intros r st' [= <- <-]. split_and!; [done..|]. by left.
Qed.

(** ** Changing the password *)

(** The outcomes of [get_user]. *)
Lemma get_user_cases st :
  (∃ u, get_user session_auth_hash st = (Some u, st)
        ∧ u ∈ user_table st
        ∧ session st
          = Some (Session.mk (CustomUser.id u)
                    (session_auth_hash (CustomUser.password u))))
  ∨ get_user session_auth_hash st = (None, st)
  ∨ get_user session_auth_hash st
    = (None, mkAccounts (user_table st) (user_seq st) None).
Proof.
  unfold get_user. destruct (session st) as [[pk hash]|]; [|right; by left].
  cbn [Session.auth_user_id Session.auth_user_hash].
  destruct (head (filter _ (user_table st))) as [u|] eqn:Hhead;
    [|right; by left].
  assert (u ∈ filter (λ u, CustomUser.id u = pk) (user_table st))
    as [Hid Hu]%list_elem_of_filter.
  { destruct (filter _ (user_table st)); [done|].
    injection Hhead as ->. left. }
  case_decide as Hhash; [|right; by right].
  left. exists u. destruct Hhash as [_ ->]. by rewrite Hid.
Qed.

Lemma request_user_Some st u :
  request_user session_auth_hash st = Some u →
  get_user session_auth_hash st = (Some u, st)
  ∧ u ∈ user_table st
  ∧ session st
    = Some (Session.mk (CustomUser.id u)
              (session_auth_hash (CustomUser.password u))).
Proof.
  unfold request_user.
  destruct (get_user_cases st) as [(v & Hget & Hv & Hs)|[Hget|Hget]];
    rewrite Hget; cbn [fst]; [|done..].
  by intros [= <-].
Qed.

Lemma same_row_by_id (table : list CustomUser.t) u v :
  NoDup (CustomUser.id <$> table) → u ∈ table → v ∈ table →
  CustomUser.id v = CustomUser.id u → v = u.
Proof.
  intros Hnd [i Hi]%list_elem_of_lookup [j Hj]%list_elem_of_lookup Hid.
  rewrite NoDup_alt in Hnd.
  assert (i = j) as ->; [|congruence].
  apply (Hnd i j (CustomUser.id u)); rewrite list_lookup_fmap.
  - by rewrite Hi.
  - rewrite Hj. simpl. by rewrite Hid.
Qed.

Lemma same_row_by_email (table : list CustomUser.t) u v :
  NoDup (CustomUser.email <$> table) → u ∈ table → v ∈ table →
  CustomUser.email v = CustomUser.email u → v = u.
Proof.
  intros Hnd [i Hi]%list_elem_of_lookup [j Hj]%list_elem_of_lookup Hid.
  rewrite NoDup_alt in Hnd.
  assert (i = j) as ->; [|congruence].
  apply (Hnd i j (CustomUser.email u)); rewrite list_lookup_fmap.
  - by rewrite Hi.
  - rewrite Hj. simpl. by rewrite Hid.
Qed.

Lemma save_user_emails st u encoded :
  NoDup (CustomUser.id <$> user_table st) → u ∈ user_table st →
  CustomUser.email <$> user_table (save_user (CustomUser.with_password encoded u) st)
  = CustomUser.email <$> user_table st.
Proof.
  intros Hnd Hu. cbn [save_user user_table]. rewrite <-list_fmap_compose.
  apply list_fmap_ext. intros i x Hx. simpl.
  case_decide as Hid; [|done]. simpl in Hid. simpl. f_equal. symmetry.
  apply (same_row_by_id (user_table st));
    [done|done|by eapply list_elem_of_lookup_2|done].
Qed.

Lemma save_user_ids st u encoded :
  CustomUser.id <$> user_table (save_user (CustomUser.with_password encoded u) st)
  = CustomUser.id <$> user_table st.
Proof.
  cbn [save_user user_table]. rewrite <-list_fmap_compose.
  apply list_fmap_ext. intros i x Hx. simpl. by case_decide.
Qed.

Lemma filter_email_saved (table : list CustomUser.t) u encoded :
  NoDup (CustomUser.id <$> table) → NoDup (CustomUser.email <$> table) →
  u ∈ table →
  filter (λ v, CustomUser.email v = CustomUser.email u)
         ((λ v, if decide (CustomUser.id v
                           = CustomUser.id (CustomUser.with_password encoded u))
                then CustomUser.with_password encoded u else v) <$> table)
  = [CustomUser.with_password encoded u].
Proof.
  induction table as [|x table IH]; [by intros _ _ ?%elem_of_nil|].
  rewrite !fmap_cons.
  intros [Hxid Hids]%NoDup_cons [Hxe Hemails]%NoDup_cons
         [->|Hu]%elem_of_cons.
  - rewrite decide_True by done. rewrite filter_cons_True by done. f_equal.
    apply filter_not_Exists. rewrite Exists_exists.
    intros (y & (z & -> & Hz)%list_elem_of_fmap & Hy).
    case_decide as Hzid.
    + apply Hxid. simpl in Hzid. rewrite <-Hzid. by apply list_elem_of_fmap_2.
    + apply Hxe. rewrite <-Hy. by apply list_elem_of_fmap_2.
  - rewrite decide_False.
    + rewrite filter_cons_False; [by apply IH|].
      intros Hx. apply Hxe. rewrite Hx. by apply list_elem_of_fmap_2.
    + simpl. intros Hx. apply Hxid. rewrite Hx. by apply list_elem_of_fmap_2.
Qed.

Lemma save_user_filter_email st u encoded :
  accounts_wf st → u ∈ user_table st →
  filter (λ v, CustomUser.email v = CustomUser.email u)
         (user_table (save_user (CustomUser.with_password encoded u) st))
  = [CustomUser.with_password encoded u].
Proof.
  intros (Hids & _ & Hemails) Hu. by apply filter_email_saved.
Qed.

(** [change_password_view] changes the password only when the two new
    passwords agree and the old one checks; the two refusals leave the
    state as it is.  A change rewrites the row of the user who is logged
    in, to the hash of the new password, and no other row. *)
Theorem change_password_view_checks (request : Request.t) (st : Accounts)
    (u : CustomUser.t) :
  request_user session_auth_hash st = Some u →
  Request.method request = "POST" →
  let old_password := QueryDict.get (Request.POST request) "old_password" in
  let new_password := QueryDict.get (Request.POST request) "new_password" in
  let new_password2 := QueryDict.get (Request.POST request) "new_password2" in
  let u' := CustomUser.with_password (make_password new_password) u in
  (new_password ≠ new_password2 →
   change_password_view make_password check_password session_auth_hash request st
   = (inr (render_page "change_password.html"
             (Some "New passwords do not match")), st))
  ∧ (new_password = new_password2 →
     check_password old_password (CustomUser.password u) = false →
     change_password_view make_password check_password session_auth_hash request st
     = (inr (render_page "change_password.html"
               (Some "Old password is incorrect")), st))
  ∧ (new_password = new_password2 →
     check_password old_password (CustomUser.password u) = true →
     change_password_view make_password check_password session_auth_hash request st
     = (inr (redirect_to "login"), save_user u' st)
     ∧ u' ∈ user_table (save_user u' st)
     ∧ ∀ v, v ∈ user_table (save_user u' st) →
            v = u' ∨ (v ∈ user_table st ∧ CustomUser.id v ≠ CustomUser.id u)).
Proof.
  intros Huser Hm old_password new_password new_password2 u'.
  pose proof (request_user_Some st u Huser) as (Hget & Hu & _).
  unfold change_password_view. rewrite Hget, decide_True by done.
  fold old_password new_password new_password2. split_and!.
  - intros Hne. by rewrite decide_True.
  - intros Heq Hcheck.
    rewrite decide_False by (intros Hn; by apply Hn). by rewrite Hcheck.
  - intros Heq Hcheck.
    rewrite decide_False by (intros Hn; by apply Hn). rewrite Hcheck.
    split_and!.
    + done.
    + cbn [save_user user_table]. apply list_elem_of_fmap.
      exists u. by rewrite decide_True.
    + intros v. cbn [save_user user_table].
      intros (x & -> & Hx)%list_elem_of_fmap.
      case_decide as Hid; [by left|]. right. done.
Qed.

(** After a change of password the new password logs in: in a table
    that keeps its constraints and with a hasher that accepts what it
    has hashed, [login_view] with the email of the user and the new
    password puts that user into the session. *)
Theorem change_password_then_login (request request' : Request.t)
    (st : Accounts) (u : CustomUser.t) (new_password : string) :
  accounts_wf st →
  request_user session_auth_hash st = Some u →
  Request.method request = "POST" →
  Request.method request' = "POST" →
  QueryDict.get (Request.POST request) "new_password" = Some new_password →
  QueryDict.get (Request.POST request) "new_password2" = Some new_password →
  check_password (QueryDict.get (Request.POST request) "old_password")
                 (CustomUser.password u) = true →
  QueryDict.get (Request.POST request') "email" = Some (CustomUser.email u) →
  QueryDict.get (Request.POST request') "password" = Some new_password →
  CustomUser.email u ≠ "" → new_password ≠ "" →
  check_password (Some new_password) (make_password (Some new_password)) = true →
  ∃ st1,
    change_password_view make_password check_password session_auth_hash request st
    = (inr (redirect_to "login"), st1)
    ∧ login_view check_password session_auth_hash request' st1
      = (inr (redirect_to "profile"),
         mkAccounts (user_table st1) (user_seq st1)
           (Some (Session.mk (CustomUser.id u)
                    (session_auth_hash (make_password (Some new_password)))))).
Proof.
  intros Hwf Huser Hm Hm' Hnew Hnew2 Hold He Hp Hene Hpne Hcheck.
  pose proof (request_user_Some st u Huser) as (Hget & Hu & _).
  eexists. split.
  - unfold change_password_view. rewrite Hget, decide_True by done.
    rewrite Hnew, Hnew2, decide_False by (intros Hn; by apply Hn).
    by rewrite Hold.
  - unfold login_view. rewrite decide_True by done. rewrite He, Hp.
    cbn [falsy]. rewrite !bool_decide_eq_false_2 by done. cbn [orb].
    cbn [users_with_email]. rewrite save_user_filter_email by done.
    cbn [head CustomUser.with_password CustomUser.password]. by rewrite Hcheck.
Qed.

(** A change of password ends the session it was made in: the session
    keeps the hash of the former password, so the next request to a page
    behind [login_required] finds a hash that does not verify, is
    answered with the redirection to the login page, and the session is
    flushed.  The digest of the session is taken to tell the new hash
    from the former one. *)
Theorem change_password_ends_session (request request' : Request.t)
    (st : Accounts) (u : CustomUser.t) :
  accounts_wf st →
  request_user session_auth_hash st = Some u →
  Request.method request = "POST" →
  let old_password := QueryDict.get (Request.POST request) "old_password" in
  let new_password := QueryDict.get (Request.POST request) "new_password" in
  let new_password2 := QueryDict.get (Request.POST request) "new_password2" in
  new_password = new_password2 →
  check_password old_password (CustomUser.password u) = true →
  session_auth_hash (make_password new_password)
  ≠ session_auth_hash (CustomUser.password u) →
  ∃ st1,
    change_password_view make_password check_password session_auth_hash
      request st
    = (inr (redirect_to "login"), st1)
    ∧ session st1 = session st
    ∧ request_user session_auth_hash st1 = None
    ∧ profile_view session_auth_hash request' st1
      = (inr redirect_to_login,
         mkAccounts (user_table st1) (user_seq st1) None).
Proof.
  intros Hwf Huser Hm old_password new_password new_password2 Hnew Hold Hhash.
  pose proof (request_user_Some st u Huser) as (Hget & Hu & Hsession).
  destruct Hwf as (Hids & _ & _).
  set (u' := CustomUser.with_password (make_password new_password) u).
  exists (save_user u' st).
  assert (get_user session_auth_hash (save_user u' st)
          = (None, mkAccounts (user_table (save_user u' st))
                              (user_seq (save_user u' st)) None)) as Hnext.
  { unfold get_user. cbn [save_user session user_table user_seq].
    rewrite Hsession. cbn [Session.auth_user_id Session.auth_user_hash].
    assert (filter (λ v, CustomUser.id v = CustomUser.id u)
              ((λ v, if decide (CustomUser.id v = CustomUser.id u')
                     then u' else v) <$> user_table st) = [u']) as ->.
    { clear -Hids Hu. induction (user_table st) as [|x table IH];
        [by apply elem_of_nil in Hu|].
      rewrite fmap_cons in Hids. apply NoDup_cons in Hids as [Hx Hids].
      rewrite fmap_cons. apply elem_of_cons in Hu as [->|Hu].
      - rewrite decide_True by done. rewrite filter_cons_True by done.
        f_equal. apply filter_not_Exists. rewrite Exists_exists.
        intros (y & (z & -> & Hz)%list_elem_of_fmap & Hy).
        apply Hx. case_decide as Hzid.
        + simpl in Hzid. rewrite <-Hzid. by apply list_elem_of_fmap_2.
        + rewrite <-Hy. by apply list_elem_of_fmap_2.
      - assert (CustomUser.id x ≠ CustomUser.id u) as Hne.
        { intros Heq. apply Hx. rewrite Heq. by apply list_elem_of_fmap_2. }
        rewrite decide_False by done.
        rewrite filter_cons_False by done. by apply IH. }
    cbn [head CustomUser.password u' CustomUser.with_password].
    rewrite decide_False; [done|].
    intros [_ Heq]. by apply Hhash. }
  split_and!.
  - unfold change_password_view. rewrite Hget, decide_True by done.
    fold old_password new_password new_password2.
    rewrite decide_False by (intros Hn; by apply Hn). by rewrite Hold.
  - done.
  - unfold request_user. by rewrite Hnext.
  - unfold profile_view. by rewrite Hnext.
Qed.

(** ** The email of a profile *)

(** [validate_email] of the profile serializer lets a user keep the email
    the user has and refuses the email of any other user. *)
Theorem validate_email_own (st : Accounts) (u : CustomUser.t) :
  accounts_wf st → u ∈ user_table st →
  validate_email (CustomUser.id u) (CustomUser.email u) st
  = inr (CustomUser.email u)
  ∧ ∀ v, v ∈ user_table st → CustomUser.id v ≠ CustomUser.id u →
         validate_email (CustomUser.id u) (CustomUser.email v) st
         = inl "This email is already in use.".
Proof.
  intros (Hids & _ & Hemails) Hu. unfold validate_email. split.
  - rewrite decide_False; [done|]. rewrite Exists_exists.
    intros (v & Hv & Hid & Hemail). apply Hid. f_equal.
    by apply (same_row_by_email (user_table st)).
  - intros v Hv Hid. rewrite decide_True; [done|].
    apply Exists_exists. by exists v.
Qed.

(** ** The constraints of the table of users are kept *)

Lemma accounts_wf_append st u :
  accounts_wf st → CustomUser.id u = user_seq st →
  ¬ Exists (λ v, CustomUser.email v = CustomUser.email u) (user_table st) →
  accounts_wf (mkAccounts (user_table st ++ [u]) (user_seq st + 1) (session st)).
Proof.
  intros (Hids & Hlt & Hemails) Hid Hfree. unfold accounts_wf. cbn.
  split_and!.
  - rewrite fmap_app. apply NoDup_app. split_and!; [done| |apply NoDup_singleton].
    intros x (v & -> & Hv)%list_elem_of_fmap Hx.
    apply list_elem_of_singleton in Hx.
    rewrite Forall_forall in Hlt. specialize (Hlt v Hv). simpl in Hlt. lia.
  - apply Forall_app. split.
    + eapply Forall_impl; [done|]. intros v ?. simpl in *. lia.
    + constructor; [simpl; lia|constructor].
  - rewrite fmap_app. apply NoDup_app. split_and!; [done| |apply NoDup_singleton].
    intros x (v & -> & Hv)%list_elem_of_fmap Hx.
    apply list_elem_of_singleton in Hx.
    apply Hfree, Exists_exists. by exists v.
Qed.

(** The manager and the pages keep the constraints of the table of
    users: primary keys and emails stay unique. *)
Theorem accounts_keep_constraints (request : Request.t) (st : Accounts)
    (email password : option string) (extra : ExtraFields.t) :
  accounts_wf st →
  accounts_wf (create_user normalize_email make_password email password
                 extra st).2
  ∧ accounts_wf (create_superuser normalize_email make_password email
                   password extra st).2
  ∧ accounts_wf (register_view normalize_email make_password request st).2
  ∧ accounts_wf (login_view check_password session_auth_hash request st).2
  ∧ accounts_wf (logout_view session_auth_hash request st).2
  ∧ accounts_wf (change_password_view make_password check_password session_auth_hash request
                   st).2.
Proof.
  intros Hwf.
  assert (∀ email password extra,
            accounts_wf (create_user normalize_email make_password email
                           password extra st).2) as Hcreate.
  { intros e p x. destruct (create_user_cases e p x st)
      as [[err ->]|(raw & u & _ & _ & -> & Hfree & Hid & Hemail & _)];
      [done|].
    apply accounts_wf_append; [done..|]. by rewrite Hemail. }
  split_and!.
  - apply Hcreate.
  - unfold create_superuser. repeat case_decide; try done.
  - destruct (register_view_cases request st)
      as [->|(raw & u & _ & _ & -> & Hfree & Hid & Hemail & _)]; [done|].
    apply accounts_wf_append; [done..|]. by rewrite Hemail.
  - unfold login_view. case_decide; [|done].
    destruct (falsy _ || falsy _); [done|].
    destruct (head _) as [u|]; [|done]. by destruct (check_password _ _).
  - unfold logout_view.
    by destruct (get_user_cases st) as [(u & -> & _)|[->| ->]].
  - unfold change_password_view.
    destruct (get_user_cases st) as [(u & -> & Hu & _)|[->| ->]];
      [|done..].
    case_decide; [|done]. case_decide; [done|].
    destruct (check_password _ _); [|done]. cbn [negb snd].
    destruct Hwf as (Hids & Hlt & Hemails). unfold accounts_wf.
    rewrite save_user_ids, save_user_emails by done. split_and!; [done| |done].
    apply (Forall_fmap CustomUser.id (λ i, i < user_seq st)).
    rewrite save_user_ids. by apply Forall_fmap.
Qed.
End accounts_properties.

(** ** The account pages on concrete input *)

Lemma register_view_refuses_witness :
  register_view (λ e, e) Toy.make_password
    (Request.mk 0 "POST" ∅
       (Examples.querydict [("email", ["bob@example.org"]);
                            ("password", ["one"]); ("password2", ["two"])])
       false)
    Toy.accounts
  = (inr (render_page "register.html" (Some "Passwords do not match")),
     Toy.accounts).
Proof.
  apply (register_view_refuses (λ e, e) Toy.make_password
           (Request.mk 0 "POST" ∅
              (Examples.querydict [("email", ["bob@example.org"]);
                                   ("password", ["one"]);
                                   ("password2", ["two"])]) false)
           Toy.accounts eq_refl).
  by_evaluation.
Defined.

Lemma register_then_login_witness :
  ∃ u,
    register_view (λ e, e) Toy.make_password
      (Request.mk 0 "POST" ∅
         (Examples.querydict [("email", ["bob@example.org"]);
                              ("password", ["pw"]); ("password2", ["pw"]);
                              ("first_name", ["Bob"]); ("last_name", ["Ray"])])
         false)
      Toy.accounts
    = (inr (render_page "login.html" None),
       mkAccounts [Toy.ann; u] 3 None)
    ∧ CustomUser.id u = 2.
Proof.
  destruct (register_then_login (λ e, e) Toy.make_password Toy.check_password
              Toy.session_auth_hash
              (Request.mk 0 "POST" ∅
                 (Examples.querydict
                    [("email", ["bob@example.org"]);
                     ("password", ["pw"]); ("password2", ["pw"]);
                     ("first_name", ["Bob"]); ("last_name", ["Ray"])])
                 false)
              (Request.mk 0 "POST" ∅
                 (Examples.querydict [("email", ["bob@example.org"]);
                                      ("password", ["pw"])]) false)
              Toy.accounts "bob@example.org" "pw" "Bob" "Ray"
              eq_refl eq_refl eq_refl eq_refl eq_refl eq_refl eq_refl
              eq_refl eq_refl ltac:(done) ltac:(done) eq_refl)
    as (u & Hrun & Hid & _).
  - intros v [->|Hv%elem_of_nil]%elem_of_cons; [by_evaluation|done].
  - reflexivity.
  - exists u. split; [exact Hrun|exact Hid].
Defined.

Lemma login_view_failure_witness :
  login_view Toy.check_password Toy.session_auth_hash
    (Request.mk 0 "POST" ∅
       (Examples.querydict [("email", ["ann@example.org"]);
                            ("password", ["guess"])]) false)
    Toy.accounts
  = (inr (render_page "login.html" (Some "Incorrect email or password.")),
     Toy.accounts).
Proof.
  apply (login_view_failure Toy.check_password Toy.session_auth_hash
           (Request.mk 0 "POST" ∅
              (Examples.querydict [("email", ["ann@example.org"]);
                                   ("password", ["guess"])]) false)
           Toy.accounts "ann@example.org" "guess"
           eq_refl eq_refl eq_refl ltac:(done) ltac:(done)).
  intros u [->|Hu%elem_of_nil]%elem_of_cons _; [reflexivity|done].
Defined.

Lemma change_password_view_checks_witness :
  change_password_view Toy.make_password Toy.check_password
      Toy.session_auth_hash
    (Request.mk 1 "POST" ∅
       (Examples.querydict [("old_password", ["secret"]);
                            ("new_password", ["a"]); ("new_password2", ["b"])])
       false)
    Toy.accounts_ann
  = (inr (render_page "change_password.html"
            (Some "New passwords do not match")),
     Toy.accounts_ann).
Proof.
  apply (change_password_view_checks Toy.make_password Toy.check_password
           Toy.session_auth_hash
           (Request.mk 1 "POST" ∅
              (Examples.querydict [("old_password", ["secret"]);
                                   ("new_password", ["a"]);
                                   ("new_password2", ["b"])]) false)
           Toy.accounts_ann Toy.ann eq_refl eq_refl).
  by_evaluation.
Defined.

Lemma change_password_then_login_witness :
  ∃ st1,
    change_password_view Toy.make_password Toy.check_password
      Toy.session_auth_hash
      (Request.mk 1 "POST" ∅
         (Examples.querydict [("old_password", ["secret"]);
                              ("new_password", ["fresh"]);
                              ("new_password2", ["fresh"])]) false)
      Toy.accounts_ann
    = (inr (redirect_to "login"), st1)
    ∧ login_view Toy.check_password Toy.session_auth_hash
        (Request.mk 0 "POST" ∅
           (Examples.querydict [("email", ["ann@example.org"]);
                                ("password", ["fresh"])]) false)
        st1
      = (inr (redirect_to "profile"),
         mkAccounts (user_table st1) (user_seq st1)
           (Some (Session.mk 1
                    (Toy.session_auth_hash
                       (Toy.make_password (Some "fresh")))))).
Proof.
  apply (change_password_then_login Toy.make_password Toy.check_password
           Toy.session_auth_hash
           (Request.mk 1 "POST" ∅
              (Examples.querydict [("old_password", ["secret"]);
                                   ("new_password", ["fresh"]);
                                   ("new_password2", ["fresh"])]) false)
           (Request.mk 0 "POST" ∅
              (Examples.querydict [("email", ["ann@example.org"]);
                                   ("password", ["fresh"])]) false)
           Toy.accounts_ann Toy.ann "fresh"
           ltac:(by_evaluation) eq_refl eq_refl eq_refl eq_refl eq_refl
           eq_refl eq_refl eq_refl ltac:(done) ltac:(done) eq_refl).
Defined.

Lemma validate_email_own_witness :
  validate_email 1 "ann@example.org" Toy.accounts = inr "ann@example.org".
Proof.
  apply (validate_email_own Toy.accounts Toy.ann ltac:(by_evaluation)
           ltac:(by_evaluation)).
Defined.

Lemma accounts_keep_constraints_witness :
  accounts_wf Toy.accounts
  ∧ accounts_wf (create_user (λ e, e) Toy.make_password
                   (Some "bob@example.org") (Some "pw") ExtraFields.none
                   Toy.accounts).2.
Proof.
  split; [by_evaluation|].
  apply (accounts_keep_constraints (λ e, e) Toy.make_password
           Toy.check_password Toy.session_auth_hash (Request.mk 0 "GET" ∅ ∅ false) Toy.accounts
           (Some "bob@example.org") (Some "pw") ExtraFields.none
           ltac:(by_evaluation)).
Defined.

Lemma change_password_ends_session_witness :
  ∃ st1,
    change_password_view Toy.make_password Toy.check_password
      Toy.session_auth_hash
      (Request.mk 1 "POST" ∅
         (Examples.querydict [("old_password", ["secret"]);
                              ("new_password", ["fresh"]);
                              ("new_password2", ["fresh"])]) false)
      Toy.accounts_ann
    = (inr (redirect_to "login"), st1)
    ∧ session st1 = session Toy.accounts_ann
    ∧ request_user Toy.session_auth_hash st1 = None
    ∧ profile_view Toy.session_auth_hash (Request.mk 1 "GET" ∅ ∅ false) st1
      = (inr redirect_to_login,
         mkAccounts (user_table st1) (user_seq st1) None).
Proof.
  apply (change_password_ends_session Toy.make_password Toy.check_password
           Toy.session_auth_hash
           (Request.mk 1 "POST" ∅
              (Examples.querydict [("old_password", ["secret"]);
                                   ("new_password", ["fresh"]);
                                   ("new_password2", ["fresh"])]) false)
           (Request.mk 1 "GET" ∅ ∅ false)
           Toy.accounts_ann Toy.ann ltac:(by_evaluation) eq_refl eq_refl
           eq_refl eq_refl).
  by_evaluation.
Defined.
